(** * A shallow embedding of [analyser.py] (StaticCodeAnalyzer)

    The development follows the Python file top to bottom:

    - [PyStr]: Python text.  A [str] is a list of Unicode code points, and
      the few [str] methods the analyser calls ([lstrip], [strip],
      [rstrip(chars)], [split(sep)[0]], [endswith]) are written out.
    - [Re]: the fragment of Python's [re] the analyser's patterns use, as a
      regular-expression datatype with a derivative matcher ([re.match],
      [re.search]) and its language semantics.
    - [Ast]: the nodes of Python's [ast] the analyser inspects, with
      [ast.iter_child_nodes] and the breadth-first [ast.walk].
    - [Analyser]: the class [StaticCodeAnalyzer] itself, with the instance
      attribute [__count_blank_lines_in_row] threaded explicitly and the
      printed lines collected in order.
    - [Main]: the block under [if __name__ == "__main__"], over a file
      system given as a function from paths to what opening, reading and
      parsing them gives.

    The second half states and proves the properties of the rule engine. *)

From Stdlib Require Import List Bool Arith Lia NArith String Ascii Sorted.
From Stdlib Require Import Permutation.
Import ListNotations.

Set Implicit Arguments.

(* ===================================================================== *)
(** ** Python text *)
(* ===================================================================== *)

Module PyStr.

(** A character is a Unicode code point; a Python [str] is a sequence of them. *)
Definition char : Type := N.
Definition str : Type := list char.

Definition ch (a : ascii) : char := N_of_ascii a.

(** [lit "abc"] is the Python literal ["abc"]. *)
Definition lit (s : string) : str := map ch (list_ascii_of_string s).

Definition nl : char := 10%N.        (* "\n" *)
Definition space : char := 32%N.     (* " "  *)
Definition hash : char := 35%N.      (* "#"  *)
Definition semicolon : char := 59%N. (* ";"  *)
Definition underscore : char := 95%N.

Definition eqc (a b : char) : bool := N.eqb a b.

Definition between (lo hi c : char) : bool := (N.leb lo c && N.leb c hi)%bool.

Arguments eqc (a b)%_N.
Arguments between (lo hi c)%_N.

(** [str.isspace] on one code point (CPython's [Py_UNICODE_ISSPACE]); the
    same table backs [str.strip()] without argument and the class [\s]. *)
Definition isspace (c : char) : bool :=
  (between 9 13 c || between 28 32 c || eqc c 133 || eqc c 160
   || eqc c 5760 || between 8192 8202 c || eqc c 8232 || eqc c 8233
   || eqc c 8239 || eqc c 8287 || eqc c 12288)%bool.

(** [s.lstrip(chars)], with the set [chars] given as a predicate. *)
Fixpoint lstrip_with (p : char -> bool) (s : str) : str :=
  match s with
  | [] => []
  | c :: t => if p c then lstrip_with p t else s
  end.

(** [s.rstrip(chars)]. *)
Definition rstrip_with (p : char -> bool) (s : str) : str :=
  rev (lstrip_with p (rev s)).

Definition lstrip (s : str) : str := lstrip_with isspace s.
Definition rstrip (s : str) : str := rstrip_with isspace s.
Definition strip (s : str) : str := rstrip (lstrip s).

(** [s.split(sep)[0]] for a one-character [sep]: the text before the first
    occurrence of [sep], or all of [s] when there is none. *)
Fixpoint split_head (sep : char) (s : str) : str :=
  match s with
  | [] => []
  | c :: t => if eqc c sep then [] else c :: split_head sep t
  end.

Fixpoint startswith (s prefix : str) {struct prefix} : bool :=
  match prefix, s with
  | [], _ => true
  | _ :: _, [] => false
  | p :: prefix', c :: s' => (eqc c p && startswith s' prefix')%bool
  end.

Definition endswith (s suffix : str) : bool :=
  startswith (rev s) (rev suffix).

Definition str_eqb (a b : str) : bool :=
  (Nat.eqb (List.length a) (List.length b) && startswith a b)%bool.

End PyStr.
Export PyStr.

(* ===================================================================== *)
(** ** Regular expressions: the part of [re] the analyser relies on *)
(* ===================================================================== *)

Module Re.

(** A character class is a predicate on code points. *)
Definition cls : Type := char -> bool.

Definition one (a : ascii) : cls := fun c => eqc c (ch a).
Definition range (lo hi : ascii) : cls := fun c => between (ch lo) (ch hi) c.
Definition union (p q : cls) : cls := fun c => (p c || q c)%bool.
Definition neg (p : cls) : cls := fun c => negb (p c).
(** [.] without DOTALL: anything but a newline. *)
Definition dot : cls := fun c => negb (eqc c nl).

Inductive regex : Type :=
| Empty : regex                      (* matches nothing *)
| Eps : regex                        (* the empty pattern *)
| Chr : cls -> regex                 (* one character of a class *)
| Cat : regex -> regex -> regex
| Alt : regex -> regex -> regex
| Star : regex -> regex.

(** Derived forms. *)
Definition Opt (r : regex) : regex := Alt Eps r.                 (* r?     *)
Definition Plus (r : regex) : regex := Cat r (Star r).           (* r+     *)
Fixpoint AtMost (n : nat) (r : regex) : regex :=                 (* r{,n}  *)
  match n with
  | 0 => Eps
  | S k => Opt (Cat r (AtMost k r))
  end.
Fixpoint AtLeast (n : nat) (r : regex) : regex :=                (* r{n,}  *)
  match n with
  | 0 => Star r
  | S k => Cat r (AtLeast k r)
  end.
(** A literal word. *)
Definition Word (s : string) : regex :=
  fold_right (fun c r => Cat (Chr (eqc c)) r) Eps (lit s).
(** A literal word under the flag [(?i)], for a word of ASCII lowercase
    letters: each letter also matches its capital. *)
Definition WordI (s : string) : regex :=
  fold_right (fun c r => Cat (Chr (fun x => eqc x c || eqc x (c - 32)%N)%bool) r)
             Eps (lit s).

Fixpoint nullable (r : regex) : bool :=
  match r with
  | Empty => false
  | Eps => true
  | Chr _ => false
  | Cat a b => (nullable a && nullable b)%bool
  | Alt a b => (nullable a || nullable b)%bool
  | Star _ => true
  end.

(** Brzozowski derivative: what is left of [r] after reading [c]. *)
Fixpoint deriv (c : char) (r : regex) : regex :=
  match r with
  | Empty => Empty
  | Eps => Empty
  | Chr p => if p c then Eps else Empty
  | Cat a b =>
      if nullable a then Alt (Cat (deriv c a) b) (deriv c b)
      else Cat (deriv c a) b
  | Alt a b => Alt (deriv c a) (deriv c b)
  | Star a => Cat (deriv c a) (Star a)
  end.

(** [re.match(r, s) is not None]: some prefix of [s] is matched by [r]. *)
Fixpoint re_match (r : regex) (s : str) : bool :=
  (nullable r ||
   match s with
   | [] => false
   | c :: t => re_match (deriv c r) t
   end)%bool.

(** All of [s] is matched by [r]. *)
Fixpoint fullmatch (r : regex) (s : str) : bool :=
  match s with
  | [] => nullable r
  | c :: t => fullmatch (deriv c r) t
  end.

(** [re.match("^" r "$", s) is not None].  Under [re.match] the leading [^]
    is redundant; without MULTILINE the final [$] holds at the end of the
    text and also just before a newline that ends the text. *)
Definition re_match_dollar (r : regex) (s : str) : bool :=
  fullmatch (Cat r (Opt (Chr (eqc nl)))) s.

(** [re.search(r, s) is not None]: [r] matches at some position of [s]. *)
Fixpoint re_search (r : regex) (s : str) : bool :=
  (re_match r s ||
   match s with
   | [] => false
   | _ :: t => re_search r t
   end)%bool.

(** The language of a regular expression. *)
Inductive matches : regex -> str -> Prop :=
| M_eps : matches Eps []
| M_chr : forall (p : cls) c, p c = true -> matches (Chr p) [c]
| M_cat : forall a b u v, matches a u -> matches b v -> matches (Cat a b) (u ++ v)
| M_alt_l : forall a b u, matches a u -> matches (Alt a b) u
| M_alt_r : forall a b u, matches b u -> matches (Alt a b) u
| M_star_nil : forall a, matches (Star a) []
| M_star_more : forall a u v,
    matches a u -> matches (Star a) v -> matches (Star a) (u ++ v).

End Re.
Export Re.

(* ===================================================================== *)
(** ** Syntax trees: the part of [ast] the analyser inspects *)
(* ===================================================================== *)

Module Ast.

(** [ast.arg]: one parameter, with its name and its own position. *)
Record arg_node : Type := Arg { arg : str; arg_lineno : nat }.

(** The node kinds the analyser tells apart, and [Other] for every other
    kind.  The [arguments] object of a function is folded into the
    function's constructor: [args] is [node.args.args], [defaults] is
    [node.args.defaults], and [others] collects the remaining nodes
    hanging off the definition: the parameters the analyser never reads
    ([node.args.posonlyargs], [node.args.kwonlyargs], [*args] and
    [**kwargs], each an [ArgNode]), the keyword-only defaults
    ([node.args.kw_defaults]), annotations, decorators and the return
    annotation.  None of these can hold a class or function definition, so
    the walk below meets the definitions of a file in the order [ast.walk]
    does. *)
#[warnings="-register-all"]
Inductive node : Type :=
| ClassDef (name : str) (lineno : nat) (bases body decorator_list : list node)
| FunctionDef (name : str) (lineno : nat) (args : list arg_node)
    (defaults body others : list node)
| AsyncFunctionDef (name : str) (lineno : nat) (args : list arg_node)
    (defaults body others : list node)
| Assign (targets : list node) (value : node) (lineno : nat)
| Name (id : str) (lineno : nat)
| List_ (elts : list node) (lineno : nat)
| Dict (entries : list node) (lineno : nat)
| Set_ (elts : list node) (lineno : nat)
| ArgNode (a : arg_node)
| Other (children : list node).

(** [ast.iter_child_nodes]: the direct children, field by field. *)
Definition iter_child_nodes (n : node) : list node :=
  match n with
  | ClassDef _ _ bases body decorator_list => bases ++ body ++ decorator_list
  | FunctionDef _ _ _ defaults body others => defaults ++ body ++ others
  | AsyncFunctionDef _ _ _ defaults body others => defaults ++ body ++ others
  | Assign targets value _ => targets ++ [value]
  | Name _ _ => []
  | List_ elts _ => elts
  | Dict entries _ => entries
  | Set_ elts _ => elts
  | ArgNode _ => []
  | Other children => children
  end.

(** Number of nodes of a tree. *)
Fixpoint node_size (n : node) : nat :=
  let sizes := fun l => list_sum (map node_size l) in
  match n with
  | ClassDef _ _ bases body decorator_list =>
      S (sizes bases + sizes body + sizes decorator_list)
  | FunctionDef _ _ _ defaults body others =>
      S (sizes defaults + sizes body + sizes others)
  | AsyncFunctionDef _ _ _ defaults body others =>
      S (sizes defaults + sizes body + sizes others)
  | Assign targets value _ => S (sizes targets + node_size value)
  | Name _ _ => 1
  | List_ elts _ => S (sizes elts)
  | Dict entries _ => S (sizes entries)
  | Set_ elts _ => S (sizes elts)
  | ArgNode _ => 1
  | Other children => S (sizes children)
  end.

(** [ast.walk]:
<<
    todo = deque([node])
    while todo:
        node = todo.popleft()
        todo.extend(iter_child_nodes(node))
        yield node
>>
    The loop runs once per node of the tree, so the size of the tree bounds
    the number of iterations. *)
Fixpoint walk_loop (fuel : nat) (todo : list node) : list node :=
  match fuel with
  | 0 => []
  | S fuel' =>
      match todo with
      | [] => []
      | n :: rest => n :: walk_loop fuel' (rest ++ iter_child_nodes n)
      end
  end.

Definition walk (tree : node) : list node :=
  walk_loop (node_size tree) [tree].

Definition is_ClassDef (n : node) : bool :=
  match n with ClassDef _ _ _ _ _ => true | _ => false end.
Definition is_FunctionDef (n : node) : bool :=
  match n with FunctionDef _ _ _ _ _ _ => true | _ => false end.
Definition is_Assign (n : node) : bool :=
  match n with Assign _ _ _ => true | _ => false end.
Definition is_Name (n : node) : bool :=
  match n with Name _ _ => true | _ => false end.
(** [isinstance(n, (ast.List, ast.Dict, ast.Set))] *)
Definition is_List_Dict_Set (n : node) : bool :=
  match n with List_ _ _ | Dict _ _ | Set_ _ _ => true | _ => false end.

(** Attribute reads; each is used only behind the matching [isinstance]. *)
Definition targets_of (n : node) : list node :=
  match n with Assign targets _ _ => targets | _ => [] end.
Definition id_of (n : node) : str :=
  match n with Name id _ => id | _ => [] end.
Definition lineno_of (n : node) : nat :=
  match n with
  | ClassDef _ l _ _ _ | FunctionDef _ l _ _ _ _ | AsyncFunctionDef _ l _ _ _ _
  | Assign _ _ l | Name _ l | List_ _ l | Dict _ l | Set_ _ l => l
  | ArgNode a => arg_lineno a
  | Other _ => 0
  end.

End Ast.
Export Ast.

(* ===================================================================== *)
(** ** The analyser *)
(* ===================================================================== *)

Module Analyser.

(** The exception classes; each derives from [StaticCodeAnalyzerError], so
    the handler of [__check_errors] catches all of them. *)
Inductive error_class : Type :=
| TooLongLineError | IndentError | UnnecessarySemicolonError
| NotEnoughSpacesError | TODOFoundError | TooManyBlankLinesError
| TooManySpacesError | NameCaseError.

(** A raised error with [err.args[0]] and [err.args[1]]. *)
Record exn : Type := Err { err_class : error_class; args0 : str; args1 : str }.

(** How a call of a line check ends. *)
Inductive outcome : Type :=
| Returned : outcome
| Raised : exn -> outcome.

Definition raise (c : error_class) (code message : string) : outcome :=
  Raised (Err c (lit code) (lit message)).

(** One printed line [f"{file}: Line {number_line}: {code} {error}"], kept
    as the four values it interpolates. *)
Record diagnostic : Type :=
  Diagnostic { file : str; number_line : nat; code : str; error : str }.

(** Standard output: the lines printed so far, oldest first. *)
Definition stdout : Type := list diagnostic.

Definition print_error (out : stdout) (file : str) (number_line : nat)
    (code error : str) : stdout :=
  out ++ [Diagnostic file number_line code error].

(** The instance attributes of a [StaticCodeAnalyzer]. *)
Record analyzer : Type :=
  Analyzer { path_file : str; count_blank_lines_in_row : nat }.

(** [__init__] *)
Definition init (path_file : str) : analyzer :=
  {| path_file := path_file; count_blank_lines_in_row := 0 |}.

(** *** Line checks *)

Definition check_long (line : str) : outcome :=
  let long := 79 in
  if long <? List.length line then raise TooLongLineError "S001" "Too long"
  else Returned.

Definition check_indentation (line : str) : outcome :=
  if (negb (str_eqb line [nl])
      && negb ((List.length line - List.length (lstrip line)) mod 4 =? 0))%bool
  then raise IndentError "S002" "Indentation is not a multiple of four"
  else Returned.

Definition check_semicolon (line : str) : outcome :=
  let parts_line_0 := split_head hash line in
  if endswith (rstrip_with (eqc space) (rstrip_with (eqc nl) parts_line_0))
              [semicolon]
  then raise UnnecessarySemicolonError "S003" "Unnecessary semicolon"
  else Returned.

(** [[^#]*[^ ]( ?#)] *)
Definition spaces_re : regex :=
  Cat (Star (Chr (neg (one "#"))))
      (Cat (Chr (neg (one " ")))
           (Cat (Opt (Chr (one " "))) (Chr (one "#")))).

Definition check_spaces (line : str) : outcome :=
  if re_match spaces_re line
  then raise NotEnoughSpacesError "S004"
             "At least two spaces required before inline"
  else Returned.

(** [(?i)# *todo] *)
Definition todo_re : regex :=
  Cat (Chr (one "#")) (Cat (Star (Chr (one " "))) (WordI "todo")).

Definition check_todo_existing (line : str) : outcome :=
  if re_search todo_re line then raise TODOFoundError "S005" "TODO found"
  else Returned.

Definition check_blank_lines (self : analyzer) (line : str)
    : analyzer * outcome :=
  let set n := {| path_file := path_file self; count_blank_lines_in_row := n |} in
  if str_eqb (strip line) [] then
    (set (count_blank_lines_in_row self + 1), Returned)
  else if 2 <? count_blank_lines_in_row self then
    (set 0, raise TooManyBlankLinesError "S006"
                  "More than two blank lines preceding a code line")
  else (set 0, Returned).

(** [class[ ]{2,}] *)
Definition class_spaces_re : regex :=
  Cat (Word "class") (AtLeast 2 (Chr (one " "))).

Definition check_class_declaration_spaces (line : str) : outcome :=
  if re_match class_spaces_re line
  then raise TooManySpacesError "S007" "Too many spaces after 'class'"
  else Returned.

(** [\s*def[ ]{2,}] *)
Definition def_spaces_re : regex :=
  Cat (Star (Chr isspace)) (Cat (Word "def") (AtLeast 2 (Chr (one " ")))).

Definition check_function_declaration_spaces (line : str) : outcome :=
  if re_match def_spaces_re line
  then raise TooManySpacesError "S007" "Too many spaces after 'def'"
  else Returned.

(** A registered check is a bound method: it sees the instance and may
    update it. *)
Definition check_func : Type := analyzer -> str -> analyzer * outcome.

Definition static (f : str -> outcome) : check_func :=
  fun self line => (self, f line).

(** [self.__check_funcs], as [__init__] fills it. *)
Definition check_funcs : list check_func :=
  [ static check_long;
    static check_indentation;
    static check_semicolon;
    static check_spaces;
    static check_todo_existing;
    check_blank_lines;
    static check_class_declaration_spaces;
    static check_function_declaration_spaces ].

(** One turn of the loop of [__check_errors]: [try: func(line)] and the
    handler [except StaticCodeAnalyzerError as err]; control then goes on
    to the next [func]. *)
Definition try_check (number_line : nat) (line : str)
    (st : analyzer * stdout) (func : check_func) : analyzer * stdout :=
  let '(self, out) := st in
  match func self line with
  | (self', Returned) => (self', out)
  | (self', Raised err) =>
      (self', print_error out (path_file self') number_line
                          (args0 err) (args1 err))
  end.

Definition check_errors (st : analyzer * stdout) (number_line : nat)
    (line : str) : analyzer * stdout :=
  fold_left (try_check number_line line) check_funcs st.

(** [for number_line, line in enumerate(f, start=1)] *)
Definition enumerate {A : Type} (start : nat) (l : list A) : list (nat * A) :=
  combine (seq start (List.length l)) l.

Definition scan_lines (st : analyzer * stdout) (lines : list str)
    : analyzer * stdout :=
  fold_left (fun st nl => check_errors st (fst nl) (snd nl))
            (enumerate 1 lines) st.

(** *** Tree checks *)

(** [[^A-Z].*] *)
Definition class_name_re : regex :=
  Cat (Chr (neg (range "A" "Z"))) (Star (Chr dot)).

(** [[_]{,2}[^a-z_].*] *)
Definition function_name_re : regex :=
  Cat (AtMost 2 (Chr (one "_")))
      (Cat (Chr (neg (union (range "a" "z") (one "_")))) (Star (Chr dot))).

(** [[^a-z_].*] *)
Definition argument_name_re : regex :=
  Cat (Chr (neg (union (range "a" "z") (one "_")))) (Star (Chr dot)).

(** [^[a-z][a-z0-9]+(_[a-z0-9]+)*$], between its anchors *)
Definition variable_name_re : regex :=
  let lower_digit := Chr (union (range "a" "z") (range "0" "9")) in
  Cat (Chr (range "a" "z"))
      (Cat (Plus lower_digit) (Star (Cat (Chr (one "_")) (Plus lower_digit)))).

Definition check_class_name (self : analyzer) (out : stdout) (node : node)
    : stdout :=
  match node with
  | ClassDef name lineno _ _ _ =>
      if re_match class_name_re name then
        print_error out (path_file self) lineno (lit "S008")
          (lit "Class name '" ++ name ++ lit "' should use CamelCase")
      else out
  | _ => out
  end.

Definition check_function_name (self : analyzer) (out : stdout) (node : node)
    : stdout :=
  match node with
  | FunctionDef name lineno _ _ _ _ =>
      if re_match function_name_re name then
        print_error out (path_file self) lineno (lit "S009")
          (lit "Function name '" ++ name ++ lit "' should use snake_case")
      else out
  | _ => out
  end.

Definition check_arguments (self : analyzer) (out : stdout) (node : node)
    : stdout :=
  match node with
  | FunctionDef _ lineno args defaults _ _ =>
      let names := map arg args in
      let out :=
        fold_left
          (fun out name =>
             if re_match argument_name_re name then
               print_error out (path_file self) lineno (lit "S010")
                 (lit "Argument name '" ++ name ++ lit "' should be snake_case")
             else out)
          names out in
      fold_left
        (fun out default =>
           if is_List_Dict_Set default then
             print_error out (path_file self) lineno (lit "S012")
               (lit "The default argument value is mutable")
           else out)
        defaults out
  | _ => out
  end.

Definition check_function_variables (self : analyzer) (out : stdout)
    (node : node) : stdout :=
  match node with
  | FunctionDef _ _ _ _ body _ =>
      let assignments := filter is_Assign body in
      fold_left
        (fun out child =>
           let variables := filter is_Name (targets_of child) in
           fold_left
             (fun out var =>
                if negb (re_match_dollar variable_name_re (id_of var)) then
                  print_error out (path_file self) (lineno_of var) (lit "S011")
                    (lit "Variable '" ++ id_of var
                       ++ lit "' in function should be snake_case")
                else out)
             variables out)
        assignments out
  | _ => out
  end.

(** The body of the loop [for node in ast.walk(tree)]. *)
Definition visit (self : analyzer) (out : stdout) (node : node) : stdout :=
  let out := if is_ClassDef node then check_class_name self out node else out in
  if is_FunctionDef node then
    let out := check_function_name self out node in
    let out := check_arguments self out node in
    check_function_variables self out node
  else out.

(** [run], on a file whose text reads as [lines] and parses to [tree]. *)
Definition run (self : analyzer) (out : stdout) (lines : list str)
    (tree : node) : analyzer * stdout :=
  let '(self, out) := scan_lines (self, out) lines in
  (self, fold_left (visit self) (walk tree) out).

(** *** The driver *)

(** A file the driver hands to the analyser: its path, its lines as file
    iteration yields them, and the tree [ast.parse] returns for its text. *)
Record source_file : Type :=
  SourceFile { path : str; lines : list str; tree : node }.

Definition call_analyzer_error (out : stdout) (f : source_file) : stdout :=
  let error_checking := init (path f) in
  snd (run error_checking out (lines f) (tree f)).

(** The driver's loop over the files it found, starting from an empty
    output. *)
Definition analyse (files : list source_file) : stdout :=
  fold_left call_analyzer_error files [].

End Analyser.
Export Analyser.

(* ===================================================================== *)
(** ** The program: the block under [if __name__ == "__main__"] *)
(* ===================================================================== *)

Module Main.

(** What [open(path)], [f.read()] and [ast.parse] make of a path: [None]
    when one of them raises (no such file, unreadable text, text that does
    not parse), otherwise the lines of the file and its tree.  All three
    run before [run] prints anything. *)
Definition file_system : Type := str -> option (list str * node).

(** What [os.walk(input_path)] yields: [(root, dirs, files)] for each
    directory, with the names as the system lists them. *)
Definition listing : Type := list (str * list str * list str).

Definition slash : char := 47%N.

(** [a <= b] on [str]: the order of the code points, a proper prefix
    first. *)
Fixpoint str_leb (a b : str) : bool :=
  match a, b with
  | [], _ => true
  | _ :: _, [] => false
  | x :: a', y :: b' =>
      if N.ltb x y then true
      else if N.ltb y x then false
      else str_leb a' b'
  end.

Fixpoint insert_sorted (x : str) (l : list str) : list str :=
  match l with
  | [] => [x]
  | y :: t => if str_leb x y then x :: l else y :: insert_sorted x t
  end.

(** [sorted(files)].  The order on [str] is total and two names that
    compare equal are the same name, so the ascending arrangement of a list
    is unique and any sorting procedure returns it. *)
Definition sorted (l : list str) : list str :=
  fold_right insert_sorted [] l.

(** [os.path.join(a, b)], as [posixpath] has it. *)
Definition join (a b : str) : str :=
  if startswith b [slash] then b
  else if (Nat.eqb (List.length a) 0 || endswith a [slash])%bool then a ++ b
  else a ++ [slash] ++ b.

(** A loop whose body may raise: [body] returns what has been printed and
    whether it returned normally; the loop stops at the first turn that
    raised. *)
Fixpoint for_each {A : Type} (body : stdout -> A -> stdout * bool)
    (l : list A) (out : stdout) : stdout * bool :=
  match l with
  | [] => (out, true)
  | x :: rest =>
      match body out x with
      | (out', true) => for_each body rest out'
      | (out', false) => (out', false)
      end
  end.

(** [call_analyzer_error(path)] on a file system: a new analyser for
    [path], then [run], which raises before printing when the file cannot
    be opened, read or parsed. *)
Definition call_analyzer_error_at (fs : file_system) (out : stdout)
    (path : str) : stdout * bool :=
  match fs path with
  | None => (out, false)
  | Some (lines, tree) =>
      (call_analyzer_error out (SourceFile path lines tree), true)
  end.

(** The program, given what [os.path.isdir(input_path)] answers and what
    [os.walk(input_path)] yields.  The result is what was printed and
    whether the program ended without an exception. *)
Definition main (fs : file_system) (isdir : bool) (walked : listing)
    (input_path : str) : stdout * bool :=
  if isdir then
    for_each
      (fun out entry =>
         let '(root, dirs, files) := entry in
         for_each
           (fun out file_name =>
              if Bool.eqb (endswith file_name (lit ".py")) false then
                (out, true)
              else
                let file_path := join root file_name in
                call_analyzer_error_at fs out file_path)
           (sorted files) out)
      walked []
  else call_analyzer_error_at fs [] input_path.

End Main.
Export Main.

(* ===================================================================== *)
(** ** Vocabulary of the properties *)
(* ===================================================================== *)

Module Vocabulary.

(** A physical line as file iteration yields it: the text and its
    terminator. *)
Definition ln (s : string) : str := lit s ++ [nl].

(** The line printed for a raised check, if any. *)
Definition report (self : analyzer) (number_line : nat) (o : outcome)
    : list diagnostic :=
  match o with
  | Returned => []
  | Raised err =>
      [Diagnostic (path_file self) number_line (args0 err) (args1 err)]
  end.

(** What the eight checks print for one line, check by check. *)
Definition line_output (self : analyzer) (number_line : nat) (line : str)
    : list diagnostic :=
  report self number_line (check_long line)
  ++ report self number_line (check_indentation line)
  ++ report self number_line (check_semicolon line)
  ++ report self number_line (check_spaces line)
  ++ report self number_line (check_todo_existing line)
  ++ report self number_line (snd (check_blank_lines self line))
  ++ report self number_line (check_class_declaration_spaces line)
  ++ report self number_line (check_function_declaration_spaces line).

(** The instance after one line. *)
Definition next_line (self : analyzer) (line : str) : analyzer :=
  fst (check_blank_lines self line).

(** What a scan prints for lines numbered from [k]. *)
Fixpoint scan_output (self : analyzer) (k : nat) (lines : list str)
    : list diagnostic :=
  match lines with
  | [] => []
  | line :: rest =>
      line_output self k line ++ scan_output (next_line self line) (S k) rest
  end.

(** A blank line: empty or whitespace only. *)
Definition blank (line : str) : Prop := strip line = [].

Definition has_code (c : string) (d : diagnostic) : bool :=
  str_eqb (code d) (lit c).

(** How many lines of [out] carry code [c] for line [n]. *)
Definition count_at (c : string) (n : nat) (out : stdout) : nat :=
  List.length (filter (fun d => has_code c d && (number_line d =? n))%bool out).

Definition lowercase (c : char) : Prop := (ch "a" <= c <= ch "z")%N.
Definition digit (c : char) : Prop := (ch "0" <= c <= ch "9")%N.

(** Zero to two underscores, then a character that is neither a lowercase
    letter nor an underscore. *)
Definition bad_function_name (name : str) : Prop :=
  exists k c rest,
    k <= 2 /\ name = repeat underscore k ++ c :: rest
    /\ ~ lowercase c /\ c <> underscore.

(** A name that starts with a character that is neither a lowercase letter
    nor an underscore. *)
Definition bad_argument_name (name : str) : bool :=
  match name with
  | [] => false
  | c :: _ => negb (between (ch "a") (ch "z") c || eqc c underscore)
  end.

(** The condition the S004 row of the rule table words: a character that is
    neither [#] nor a space, then at most one space, then [#]. *)
Fixpoint tight_comment (line : str) : bool :=
  match line with
  | [] => false
  | c :: t =>
      (negb (eqc c hash) && negb (eqc c space)
       && (startswith t [hash] || startswith t [space; hash]))
      || tight_comment t
  end.

(** A segment of lowercase letters and digits, not empty. *)
Definition segment (s : str) : Prop :=
  s <> [] /\ Forall (fun c => lowercase c \/ digit c) s.

(** [^[a-z][a-z0-9]+(_[a-z0-9]+)*$] in words: a lowercase letter, a
    segment, then segments each led by an underscore. *)
Definition snake_case_variable (id : str) : Prop :=
  exists c seg segs,
    id = c :: seg ++ List.concat (map (cons underscore) segs)
    /\ lowercase c /\ segment seg /\ Forall segment segs.

(** A default written as a list, a dict or a set display. *)
Definition mutable_literal (default : node) : bool :=
  match default with
  | List_ _ _ => true
  | Dict _ _ => true
  | Set_ _ _ => true
  | _ => false
  end.

(** The S011 lines of one function body, statement by statement and target
    by target. *)
Definition variable_reports (self : analyzer) (body : list node)
    : list diagnostic :=
  flat_map
    (fun stmt =>
       match stmt with
       | Assign targets _ _ =>
           flat_map
             (fun target =>
                match target with
                | Name id lineno =>
                    if re_match_dollar variable_name_re id then []
                    else [Diagnostic (path_file self) lineno (lit "S011")
                            (lit "Variable '" ++ id
                               ++ lit "' in function should be snake_case")]
                | _ => []
                end)
             targets
       | _ => []
       end)
    body.

(** What visiting one function definition prints: the name, then the
    arguments, then the defaults, then the assignments of the body. *)
Definition function_reports (self : analyzer) (name : str) (lineno : nat)
    (args : list arg_node) (defaults body : list node) : list diagnostic :=
  (if re_match function_name_re name then
     [Diagnostic (path_file self) lineno (lit "S009")
        (lit "Function name '" ++ name ++ lit "' should use snake_case")]
   else [])
  ++ map (fun a =>
            Diagnostic (path_file self) lineno (lit "S010")
              (lit "Argument name '" ++ arg a ++ lit "' should be snake_case"))
         (filter (fun a => bad_argument_name (arg a)) args)
  ++ map (fun _ =>
            Diagnostic (path_file self) lineno (lit "S012")
              (lit "The default argument value is mutable"))
         (filter is_List_Dict_Set defaults)
  ++ variable_reports self body.

(** [below tree n]: [n] is [tree] or lies under it. *)
Inductive below (tree : node) : node -> Prop :=
| below_self : below tree tree
| below_child : forall n c,
    below tree n -> In c (iter_child_nodes n) -> below tree c.

(** Total number of nodes in a queue of trees. *)
Definition queue_size (todo : list node) : nat :=
  list_sum (map node_size todo).

(** The codes of the line checks, in the order of the checks, and the
    codes of the tree checks. *)
Definition line_codes : list str :=
  [lit "S001"; lit "S002"; lit "S003"; lit "S004"; lit "S005"; lit "S006";
   lit "S007"].
Definition tree_codes : list str :=
  [lit "S008"; lit "S009"; lit "S010"; lit "S011"; lit "S012"].

(** [subseq l1 l2]: [l1] is [l2] with some of its elements left out. *)
Fixpoint subseq (l1 l2 : list str) {struct l2} : bool :=
  match l2 with
  | [] => match l1 with [] => true | _ :: _ => false end
  | y :: t2 =>
      match l1 with
      | [] => true
      | x :: t1 => if str_eqb x y then subseq t1 t2 else subseq l1 t2
      end
  end.

(** The word [w] read without regard to case is the lowercase ASCII word
    [s]. *)
Definition same_word_ignoring_case (w : str) (s : string) : Prop :=
  Forall2 (fun x c => x = c \/ x = (c - 32)%N) w (lit s).

(** A name that starts with a character outside [A-Z]. *)
Definition bad_class_name (name : str) : bool :=
  match name with
  | [] => false
  | c :: _ => negb (between (ch "A") (ch "Z") c)
  end.

(** The paths the program analyses in a directory run, in order: for each
    directory of the walk, its names that end in [.py], ascending, joined to
    the directory. *)
Definition targets (walked : listing) : list str :=
  flat_map
    (fun entry =>
       let '(root, dirs, files) := entry in
       map (join root)
           (filter (fun name => endswith name (lit ".py")) (sorted files)))
    walked.

(** The file behind a path, when it can be opened, read and parsed. *)
Definition load (fs : file_system) (path : str) : option source_file :=
  match fs path with
  | None => None
  | Some (lines, tree) => Some (SourceFile path lines tree)
  end.

Definition str_le (a b : str) : Prop := str_leb a b = true.

(** The nodes of a forest level by level, for [n] levels: the trees of
    [q], then their children from left to right, then the children of
    those, and so on. *)
Fixpoint levels (n : nat) (q : list node) : list node :=
  match n with
  | 0 => []
  | S n' => q ++ levels n' (flat_map iter_child_nodes q)
  end.

End Vocabulary.
Export Vocabulary.

(* ===================================================================== *)
(** ** Facts about text *)
(* ===================================================================== *)

Module PyStrFacts.

Lemma eqc_true (a b : char) : eqc a b = true <-> a = b.
Proof. unfold eqc. apply N.eqb_eq. Qed.

Lemma eqc_refl (a : char) : eqc a a = true.
Proof. apply eqc_true. reflexivity. Qed.

Lemma startswith_app (p t : str) : startswith (p ++ t) p = true.
Proof.
  induction p as [|c p IH]; simpl; [reflexivity|].
  now rewrite eqc_refl, IH.
Qed.

Lemma startswith_spec (s p : str) :
  startswith s p = true <-> exists t, s = p ++ t.
Proof.
  split.
  - revert s. induction p as [|c p IH]; intros s H.
    + now exists s.
    + destruct s as [|d s]; simpl in H; [discriminate|].
      apply andb_true_iff in H. destruct H as [Hc Hp].
      apply eqc_true in Hc. subst d.
      destruct (IH _ Hp) as [t ->]. now exists t.
  - intros [t ->]. apply startswith_app.
Qed.

Lemma str_eqb_spec (a b : str) : str_eqb a b = true <-> a = b.
Proof.
  unfold str_eqb. rewrite andb_true_iff, Nat.eqb_eq, startswith_spec. split.
  - intros [Hlen [t ->]]. rewrite length_app in Hlen.
    destruct t; [now rewrite app_nil_r | simpl in Hlen; lia].
  - intros ->. split; [reflexivity | exists []; now rewrite app_nil_r].
Qed.

(** [lstrip_with] removes the longest prefix inside the set. *)
Lemma lstrip_with_split (p : char -> bool) (s : str) :
  exists u, s = u ++ lstrip_with p s /\ forallb p u = true.
Proof.
  induction s as [|c s [u [Hs Hu]]]; simpl.
  - now exists [].
  - destruct (p c) eqn:Hc.
    + exists (c :: u). simpl. rewrite Hc, Hu. split; [now f_equal | reflexivity].
    + now exists [].
Qed.

Lemma lstrip_with_all (p : char -> bool) (s : str) :
  forallb p s = true -> lstrip_with p s = [].
Proof.
  induction s as [|c s IH]; simpl; [reflexivity|].
  intros H. apply andb_true_iff in H. destruct H as [-> H]. now apply IH.
Qed.

Lemma lstrip_with_nil_iff (p : char -> bool) (s : str) :
  lstrip_with p s = [] <-> forallb p s = true.
Proof.
  split; [|apply lstrip_with_all].
  induction s as [|c s IH]; simpl; [reflexivity|].
  destruct (p c); [exact IH | discriminate].
Qed.

Lemma lstrip_with_app (p : char -> bool) (u s : str) :
  forallb p u = true -> lstrip_with p (u ++ s) = lstrip_with p s.
Proof.
  induction u as [|c u IH]; simpl; [reflexivity|].
  intros H. apply andb_true_iff in H. destruct H as [-> H]. now apply IH.
Qed.

(** A line is blank for [strip] exactly when all its characters are
    whitespace. *)
Lemma strip_nil_iff (s : str) : strip s = [] <-> forallb isspace s = true.
Proof.
  unfold strip, rstrip, rstrip_with, lstrip. split.
  - intros H.
    assert (Hr : lstrip_with isspace (rev (lstrip_with isspace s)) = []).
    { apply (f_equal (@rev char)) in H. now rewrite rev_involutive in H. }
    apply lstrip_with_nil_iff in Hr.
    destruct (lstrip_with_split isspace s) as [u [Hs Hu]].
    rewrite Hs, forallb_app, Hu. simpl.
    rewrite forallb_forall in *. intros x Hx. apply Hr. now apply in_rev in Hx.
  - intros H. now rewrite (lstrip_with_all _ _ H).
Qed.

End PyStrFacts.
Import PyStrFacts.

(* ===================================================================== *)
(** ** Facts about the matcher *)
(* ===================================================================== *)

Module ReFacts.

Create HintDb re.
#[local] Hint Constructors matches : re.

Lemma matches_eps_inv s : matches Eps s -> s = [].
Proof. now inversion 1. Qed.

Lemma matches_empty_inv s : ~ matches Empty s.
Proof. inversion 1. Qed.

Lemma matches_chr_inv (p : cls) s :
  matches (Chr p) s -> exists c, s = [c] /\ p c = true.
Proof. inversion 1; subst. eauto. Qed.

Lemma matches_cat_inv a b s :
  matches (Cat a b) s -> exists u v, s = u ++ v /\ matches a u /\ matches b v.
Proof. inversion 1; subst. eauto. Qed.

Lemma matches_alt_inv a b s :
  matches (Alt a b) s -> matches a s \/ matches b s.
Proof. inversion 1; subst; auto. Qed.

(** A non-empty word of [Star a] starts with a non-empty word of [a]. *)
Lemma matches_star_cons a c s :
  matches (Star a) (c :: s) ->
  exists u v, s = u ++ v /\ matches a (c :: u) /\ matches (Star a) v.
Proof.
  intros H. remember (Star a) as r eqn:Hr. remember (c :: s) as w eqn:Hw.
  revert Hr Hw.
  induction H as [| | | | | |a' u v Hu _ Hv IHv]; try discriminate.
  intros [= ->] Hw. destruct u as [|d u]; simpl in Hw.
  - now apply IHv.
  - injection Hw as -> <-. eauto.
Qed.

Lemma nullable_spec r : nullable r = true <-> matches r [].
Proof.
  induction r as [| |p|a IHa b IHb|a IHa b IHb|a IHa]; simpl.
  - split; [discriminate | intros H; now apply matches_empty_inv in H].
  - split; auto with re.
  - split; [discriminate|]. intros H.
    apply matches_chr_inv in H. destruct H as [c [H _]]. discriminate.
  - rewrite andb_true_iff, IHa, IHb. split.
    + intros [Ha Hb]. change (@nil char) with (@nil char ++ []). auto with re.
    + intros H. apply matches_cat_inv in H. destruct H as [u [v [Huv [Hu Hv]]]].
      symmetry in Huv. apply app_eq_nil in Huv. destruct Huv as [-> ->]. auto.
  - rewrite orb_true_iff, IHa, IHb. split.
    + intros [H|H]; auto with re.
    + apply matches_alt_inv.
  - split; auto with re.
Qed.

Lemma deriv_spec r : forall c s, matches (deriv c r) s <-> matches r (c :: s).
Proof.
  induction r as [| |p|a IHa b IHb|a IHa b IHb|a IHa]; intros c s; simpl.
  - split; inversion 1.
  - split; inversion 1.
  - destruct (p c) eqn:Hp; split; intros H.
    + apply matches_eps_inv in H. subst s. auto with re.
    + apply matches_chr_inv in H. destruct H as [d [[= -> ->] _]]. auto with re.
    + now apply matches_empty_inv in H.
    + apply matches_chr_inv in H. destruct H as [d [[= -> ->] Hd]]. congruence.
  - assert (Hcat : forall w, matches (Cat (deriv c a) b) w ->
                             matches (Cat a b) (c :: w)).
    { intros w H. apply matches_cat_inv in H.
      destruct H as [u [v [-> [Hu Hv]]]]. apply IHa in Hu.
      change (c :: u ++ v) with ((c :: u) ++ v). auto with re. }
    assert (Hinv : matches (Cat a b) (c :: s) ->
                   matches (Cat (deriv c a) b) s \/
                   (matches a [] /\ matches (deriv c b) s)).
    { intros H. apply matches_cat_inv in H.
      destruct H as [u [v [Huv [Hu Hv]]]]. destruct u as [|d u]; simpl in Huv.
      - subst v. right. split; [assumption | now apply IHb].
      - injection Huv as <- ->. left. apply IHa in Hu. auto with re. }
    destruct (nullable a) eqn:Hn.
    + split.
      * intros H. apply matches_alt_inv in H. destruct H as [H|H]; [auto|].
        apply IHb in H. apply nullable_spec in Hn.
        change (c :: s) with ([] ++ c :: s). auto with re.
      * intros H. destruct (Hinv H) as [H'|[_ H']]; auto with re.
    + split; [apply Hcat|].
      intros H. destruct (Hinv H) as [H'|[H' _]]; [assumption|].
      apply nullable_spec in H'. congruence.
  - split; intros H.
    + apply matches_alt_inv in H. destruct H as [H|H];
        [apply IHa in H | apply IHb in H]; auto with re.
    + apply matches_alt_inv in H. destruct H as [H|H];
        [apply IHa in H | apply IHb in H]; auto with re.
  - split; intros H.
    + apply matches_cat_inv in H. destruct H as [u [v [-> [Hu Hv]]]].
      apply IHa in Hu. change (c :: u ++ v) with ((c :: u) ++ v). auto with re.
    + apply matches_star_cons in H. destruct H as [u [v [-> [Hu Hv]]]].
      apply IHa in Hu. auto with re.
Qed.

Theorem fullmatch_spec r s : fullmatch r s = true <-> matches r s.
Proof.
  revert r. induction s as [|c s IH]; intros r; simpl.
  - apply nullable_spec.
  - rewrite IH. apply deriv_spec.
Qed.

(** [re.match] succeeds exactly when a prefix of the text is in the
    language of the pattern. *)
Theorem re_match_spec r s :
  re_match r s = true <-> exists u v, s = u ++ v /\ matches r u.
Proof.
  revert r. induction s as [|c s IH]; intros r; simpl.
  - rewrite orb_false_r, nullable_spec. split.
    + intros H. now exists [], [].
    + intros [u [v [Huv H]]]. symmetry in Huv. apply app_eq_nil in Huv.
      now destruct Huv as [-> _].
  - rewrite orb_true_iff, nullable_spec, IH. split.
    + intros [H|[u [v [-> H]]]].
      * now exists [], (c :: s).
      * exists (c :: u), v. split; [reflexivity | now apply deriv_spec].
    + intros [u [v [Huv H]]]. destruct u as [|d u]; [now left|].
      injection Huv as <- ->. right. exists u, v.
      split; [reflexivity | now apply deriv_spec].
Qed.

Lemma one_true (a : ascii) c : one a c = true <-> c = ch a.
Proof. unfold one. apply eqc_true. Qed.

Lemma matches_opt_chr (p : cls) s :
  matches (Opt (Chr p)) s <-> s = [] \/ exists c, s = [c] /\ p c = true.
Proof.
  unfold Opt. split.
  - intros H. apply matches_alt_inv in H. destruct H as [H|H].
    + left. now apply matches_eps_inv.
    + right. now apply matches_chr_inv.
  - intros [->|[c [-> Hc]]]; [apply M_alt_l | apply M_alt_r]; now constructor.
Qed.

Lemma re_match_false r s :
  re_match r s = false <-> forall u v, s = u ++ v -> ~ matches r u.
Proof.
  split.
  - intros H u v Hs Hm.
    assert (Ht : re_match r s = true) by (apply re_match_spec; eauto).
    congruence.
  - intros H. apply not_true_iff_false. intros Ht.
    apply re_match_spec in Ht. destruct Ht as [u [v [Hs Hm]]].
    exact (H u v Hs Hm).
Qed.

(** [re.search] succeeds exactly when the text holds a word of the
    pattern. *)
Theorem re_search_spec r s :
  re_search r s = true <-> exists t u v, s = t ++ u ++ v /\ matches r u.
Proof.
  induction s as [|c s IH]; cbn [re_search].
  - rewrite orb_false_r, re_match_spec. split.
    + intros [u [v [Hs H]]]. now exists [], u, v.
    + intros [t [u [v [Hs H]]]]. destruct t; [|discriminate].
      simpl in Hs. eauto.
  - rewrite orb_true_iff, re_match_spec, IH. split.
    + intros [[u [v [Hs H]]]|[t [u [v [Hs H]]]]].
      * now exists [], u, v.
      * exists (c :: t), u, v. simpl. now rewrite Hs.
    + intros [t [u [v [Hs H]]]]. destruct t as [|d t]; simpl in Hs.
      * left. eauto.
      * injection Hs as <- ->. right. eauto.
Qed.

(** Words of a starred class are the words over that class. *)
Lemma matches_star_chr (p : cls) s :
  matches (Star (Chr p)) s <-> forallb p s = true.
Proof.
  split.
  - induction s as [|c s IH]; [reflexivity|]. intros H.
    apply matches_star_cons in H. destruct H as [u [v [-> [Hu Hv]]]].
    apply matches_chr_inv in Hu. destruct Hu as [d [[= -> ->] Hc]].
    simpl. rewrite Hc. now apply IH.
  - induction s as [|c s IH]; simpl; [auto with re|]. intros H.
    apply andb_true_iff in H. destruct H as [Hc Hs].
    change (c :: s) with ([c] ++ s). auto with re.
Qed.

Lemma matches_word_lit (w : str) :
  matches (fold_right (fun c r => Cat (Chr (eqc c)) r) Eps w) w.
Proof.
  induction w as [|c w IH]; simpl; [auto with re|].
  change (c :: w) with ([c] ++ w). constructor; [|assumption].
  constructor. apply eqc_refl.
Qed.

Lemma matches_word_lit_inv (w s : str) :
  matches (fold_right (fun c r => Cat (Chr (eqc c)) r) Eps w) s -> s = w.
Proof.
  revert s. induction w as [|c w IH]; simpl; intros s H.
  - now apply matches_eps_inv.
  - apply matches_cat_inv in H. destruct H as [u [v [-> [Hu Hv]]]].
    apply matches_chr_inv in Hu. destruct Hu as [d [-> Hd]].
    apply eqc_true in Hd. subst d. simpl. f_equal. now apply IH.
Qed.

Lemma matches_word (w : string) s : matches (Word w) s <-> s = lit w.
Proof.
  unfold Word. split; [apply matches_word_lit_inv|].
  intros ->. apply matches_word_lit.
Qed.

(** [r{n,}] over a class: at least [n] characters of the class. *)
Lemma matches_atleast_chr (p : cls) n s :
  matches (AtLeast n (Chr p)) s <-> (n <= List.length s /\ forallb p s = true).
Proof.
  revert s. induction n as [|n IH]; intros s; simpl.
  - rewrite matches_star_chr. split; [intros H; split; [lia|assumption] | tauto].
  - split.
    + intros H. apply matches_cat_inv in H. destruct H as [u [v [-> [Hu Hv]]]].
      apply matches_chr_inv in Hu. destruct Hu as [c [-> Hc]].
      apply IH in Hv. destruct Hv as [Hn Hv]. simpl. rewrite Hc, Hv.
      split; [lia | reflexivity].
    + intros [Hn Hs]. destruct s as [|c s]; simpl in *; [lia|].
      apply andb_true_iff in Hs. destruct Hs as [Hc Hs].
      change (c :: s) with ([c] ++ s). constructor; [now constructor|].
      apply IH. split; [lia | assumption].
Qed.

(** [r{,n}] over a class: at most [n] characters of the class. *)
Lemma matches_atmost_chr (p : cls) n s :
  matches (AtMost n (Chr p)) s <-> (List.length s <= n /\ forallb p s = true).
Proof.
  revert s. induction n as [|n IH]; intros s; simpl.
  - split.
    + intros H. apply matches_eps_inv in H. subst s. now split.
    + intros [Hn _]. destruct s; [auto with re | simpl in Hn; lia].
  - unfold Opt. split.
    + intros H. apply matches_alt_inv in H. destruct H as [H|H].
      * apply matches_eps_inv in H. subst s. simpl. split; [lia | reflexivity].
      * apply matches_cat_inv in H. destruct H as [u [v [-> [Hu Hv]]]].
        apply matches_chr_inv in Hu. destruct Hu as [c [-> Hc]].
        apply IH in Hv. destruct Hv as [Hn Hv]. simpl. rewrite Hc, Hv.
        split; [lia | reflexivity].
    + intros [Hn Hs]. destruct s as [|c s]; [auto with re|].
      simpl in *. apply andb_true_iff in Hs. destruct Hs as [Hc Hs].
      apply M_alt_r. change (c :: s) with ([c] ++ s).
      constructor; [now constructor|]. apply IH. split; [lia | assumption].
Qed.

End ReFacts.
Import ReFacts.

(* ===================================================================== *)
(** ** The line scanner *)
(* ===================================================================== *)

Module LineScanner.

(** *** One line through the eight checks *)

Lemma path_file_next_line self line :
  path_file (next_line self line) = path_file self.
Proof.
  unfold next_line, check_blank_lines.
  destruct (str_eqb (strip line) []); [reflexivity|].
  destruct (2 <? count_blank_lines_in_row self); reflexivity.
Qed.

Lemma report_next_line self line n o :
  report (next_line self line) n o = report self n o.
Proof.
  destruct o; simpl; [reflexivity | now rewrite path_file_next_line].
Qed.

Lemma try_check_static n line self out (f : str -> outcome) :
  try_check n line (self, out) (static f) = (self, out ++ report self n (f line)).
Proof.
  unfold try_check, static, report, print_error.
  destruct (f line); [now rewrite app_nil_r | reflexivity].
Qed.

Lemma try_check_blank_lines n line self out :
  try_check n line (self, out) check_blank_lines =
  (next_line self line, out ++ report self n (snd (check_blank_lines self line))).
Proof.
  unfold try_check, next_line.
  pose proof (path_file_next_line self line) as Hp. unfold next_line in Hp.
  destruct (check_blank_lines self line) as [self' [|err]]; simpl in *.
  - now rewrite app_nil_r.
  - unfold print_error. now rewrite Hp.
Qed.

(** The loop of [__check_errors] written out: every check is called, and
    what each prints is appended in the order of [check_funcs]. *)
Lemma check_errors_unfold self out n line :
  check_errors (self, out) n line =
  (next_line self line, out ++ line_output self n line).
Proof.
  unfold check_errors, check_funcs, line_output. cbn [fold_left].
  rewrite !try_check_static, try_check_blank_lines, !try_check_static.
  rewrite !report_next_line.
  now rewrite <- !app_assoc.
Qed.

Lemma report_length self n o : List.length (report self n o) <= 1.
Proof. destruct o; simpl; lia. Qed.

Lemma line_output_length self n line : List.length (line_output self n line) <= 8.
Proof.
  unfold line_output. rewrite !length_app.
  pose proof (report_length self n (check_long line)).
  pose proof (report_length self n (check_indentation line)).
  pose proof (report_length self n (check_semicolon line)).
  pose proof (report_length self n (check_spaces line)).
  pose proof (report_length self n (check_todo_existing line)).
  pose proof (report_length self n (snd (check_blank_lines self line))).
  pose proof (report_length self n (check_class_declaration_spaces line)).
  pose proof (report_length self n (check_function_declaration_spaces line)).
  lia.
Qed.

(** *** A whole scan *)

Lemma enumerate_cons {A : Type} k (x : A) l :
  enumerate k (x :: l) = (k, x) :: enumerate (S k) l.
Proof. reflexivity. Qed.

Lemma scan_from_unfold lines : forall self out k,
  fold_left (fun st nl => check_errors st (fst nl) (snd nl))
            (enumerate k lines) (self, out) =
  (fold_left next_line lines self, out ++ scan_output self k lines).
Proof.
  induction lines as [|line rest IH]; intros self out k.
  - simpl. now rewrite app_nil_r.
  - rewrite enumerate_cons. cbn [fold_left fst snd scan_output].
    rewrite check_errors_unfold, IH. now rewrite <- app_assoc.
Qed.

Lemma scan_lines_unfold self out lines :
  scan_lines (self, out) lines =
  (fold_left next_line lines self, out ++ scan_output self 1 lines).
Proof. apply scan_from_unfold. Qed.

Lemma scan_output_app l1 : forall self k l2,
  scan_output self k (l1 ++ l2) =
  scan_output self k l1
  ++ scan_output (fold_left next_line l1 self) (k + List.length l1) l2.
Proof.
  induction l1 as [|line rest IH]; intros self k l2; simpl.
  - now rewrite Nat.add_0_r.
  - rewrite IH, <- app_assoc.
    now replace (S k + List.length rest) with (k + S (List.length rest)) by lia.
Qed.

Lemma report_number_line self n o d : In d (report self n o) -> number_line d = n.
Proof. destruct o; simpl; [tauto|]. now intros [<-|[]]. Qed.

Lemma line_output_number_line self n line d :
  In d (line_output self n line) -> number_line d = n.
Proof.
  unfold line_output. rewrite !in_app_iff.
  intros H. repeat destruct H as [H|H]; eauto using report_number_line.
Qed.

(** A scan numbers what it prints with the lines it reads. *)
Lemma scan_output_number_line lines : forall self k d,
  In d (scan_output self k lines) ->
  k <= number_line d < k + List.length lines.
Proof.
  induction lines as [|line rest IH]; intros self k d; simpl; [tauto|].
  rewrite in_app_iff. intros [H|H].
  - apply line_output_number_line in H. lia.
  - apply IH in H. lia.
Qed.

(** *** The order and independence of the checks *)

(** C1, as the code has it: every line goes through all eight checks in the
    order S001, S002, S003, S004, S005, S006, S007a, S007b, whatever the
    earlier ones raised; each check prints at most one line, so one input
    line yields between zero and eight lines, in the order of the checks. *)
Theorem check_errors_runs_every_check : forall self out number_line line,
  check_errors (self, out) number_line line =
    (fst (check_blank_lines self line),
     out
     ++ report self number_line (check_long line)
     ++ report self number_line (check_indentation line)
     ++ report self number_line (check_semicolon line)
     ++ report self number_line (check_spaces line)
     ++ report self number_line (check_todo_existing line)
     ++ report self number_line (snd (check_blank_lines self line))
     ++ report self number_line (check_class_declaration_spaces line)
     ++ report self number_line (check_function_declaration_spaces line))
  /\ List.length (snd (check_errors (self, out) number_line line))
     <= List.length out + 8
  /\ (forall o, List.length (report self number_line o) <= 1).
Proof.
  intros self out n line. rewrite check_errors_unfold. split; [reflexivity|].
  split; [|intros o; apply report_length].
  cbn [snd]. rewrite length_app.
  pose proof (line_output_length self n line). lia.
Qed.

(** C1, refuted as stated: a line with a trailing semicolon and a tight
    to-do comment gets three lines of output, S003, S004 and S005. *)
Lemma first_match_does_not_win :
  map code (snd (check_errors (init (lit "a.py"), []) 1 (ln "x = 1; # todo")))
  = [lit "S003"; lit "S004"; lit "S005"]
  /\ 1 < List.length
           (snd (check_errors (init (lit "a.py"), []) 1 (ln "x = 1; # todo"))).
Proof. split; vm_compute; [reflexivity | lia]. Qed.

(** *** S002 on blank lines *)

Lemma blank_lstrip line : blank line -> lstrip line = [].
Proof.
  unfold blank. intros H. apply strip_nil_iff in H.
  now apply lstrip_with_all.
Qed.

(** C4, as the code has it: only the line that is exactly a terminator is
    exempt by name.  Any other whitespace-only line strips to nothing, so
    its whole length, terminator included, counts as indentation, and S002
    is raised exactly when that length is not a multiple of four. *)
Theorem indentation_on_blank_lines : forall line,
  blank line ->
  check_indentation line =
    (if (str_eqb line [nl] || (List.length line mod 4 =? 0))%bool then Returned
     else raise IndentError "S002" "Indentation is not a multiple of four")
  /\ check_indentation [nl] = Returned.
Proof.
  intros line Hb. split; [|reflexivity].
  unfold check_indentation. rewrite (blank_lstrip Hb). cbn [List.length].
  rewrite Nat.sub_0_r.
  destruct (str_eqb line [nl]); [reflexivity|].
  now destruct (List.length line mod 4 =? 0).
Qed.

(** The rule at work on a line of two spaces. *)
Lemma indentation_on_blank_lines_witness :
  blank (ln "  ")
  /\ check_indentation (ln "  ") =
       raise IndentError "S002" "Indentation is not a multiple of four".
Proof.
  assert (Hb : blank (ln "  ")) by reflexivity.
  split; [exact Hb|].
  destruct (indentation_on_blank_lines Hb) as [H _].
  rewrite H. reflexivity.
Defined.

(** C4, refuted as stated: two spaces and a terminator make a blank line,
    and S002 is raised for it. *)
Lemma blank_line_raises_S002 :
  blank (ln "  ")
  /\ check_indentation (ln "  ") =
       raise IndentError "S002" "Indentation is not a multiple of four".
Proof. split; reflexivity. Qed.

(** *** S004: the gap before a comment *)


Lemma neg_one_true (a : ascii) c : neg (one a) c = true <-> c <> ch a.
Proof.
  unfold neg. rewrite negb_true_iff, <- not_true_iff_false.
  now rewrite one_true.
Qed.

Lemma forallb_neg_one (a : ascii) s :
  forallb (neg (one a)) s = true <-> ~ In (ch a) s.
Proof.
  induction s as [|c s IH]; simpl; [tauto|].
  rewrite andb_true_iff, neg_one_true, IH. intuition congruence.
Qed.

(** What [[^#]*[^ ]( ?#)] finds at the start of a line: a stretch free of
    [#], one character that is not a space, at most one space, and [#]. *)
Lemma spaces_re_shape line :
  re_match spaces_re line = true <->
  exists p c t,
    line = p ++ c :: t /\ ~ In hash p /\ c <> space
    /\ (startswith t [hash] = true \/ startswith t [space; hash] = true).
Proof.
  rewrite re_match_spec. unfold spaces_re. split.
  - intros [u [v [-> H]]].
    apply matches_cat_inv in H. destruct H as [p [wa [-> [Hp H]]]].
    apply matches_cat_inv in H. destruct H as [w1 [wb [-> [H1 H]]]].
    apply matches_cat_inv in H. destruct H as [w2 [w3 [-> [H2 H3]]]].
    apply matches_star_chr, forallb_neg_one in Hp.
    apply matches_chr_inv in H1. destruct H1 as [c [-> Hc]].
    apply neg_one_true in Hc.
    apply matches_chr_inv in H3. destruct H3 as [h [-> Hh]].
    apply one_true in Hh. subst h.
    apply matches_opt_chr in H2.
    exists p, c, (w2 ++ [ch "#"] ++ v).
    split; [now rewrite <- !app_assoc|]. split; [exact Hp|]. split; [exact Hc|].
    destruct H2 as [->|[d [-> Hd]]].
    + left. apply (startswith_app [hash] v).
    + right. apply one_true in Hd. subst d.
      apply (startswith_app [space; hash] v).
  - intros [p [c [t [-> [Hp [Hc Ht]]]]]].
    assert (Hpre : matches (Star (Chr (neg (one "#")))) p)
      by now apply matches_star_chr, forallb_neg_one.
    assert (Hchr : matches (Chr (neg (one " "))) [c])
      by now constructor; apply neg_one_true.
    assert (Hhash : matches (Chr (one "#")) [hash]) by now constructor.
    destruct Ht as [Ht|Ht]; apply startswith_spec in Ht; destruct Ht as [t' ->].
    + exists (p ++ [c] ++ [] ++ [hash]), t'.
      split; [now rewrite <- !app_assoc|].
      apply M_cat; [exact Hpre|]. apply M_cat; [exact Hchr|].
      apply M_cat; [|exact Hhash]. apply matches_opt_chr. now left.
    + exists (p ++ [c] ++ [space] ++ [hash]), t'.
      split; [now rewrite <- !app_assoc|].
      apply M_cat; [exact Hpre|]. apply M_cat; [exact Hchr|].
      apply M_cat; [|exact Hhash]. apply matches_opt_chr.
      right. now exists space.
Qed.

(** C5, as the code has it: S004 is raised exactly when some character other
    than a space, with no [#] anywhere before it, is followed at once by at
    most one space and then [#].  That character may be the first [#] of
    the line itself.  The two lines of the specification's example behave as
    it says. *)
Theorem spaces_rule : forall line,
  (check_spaces line =
     raise NotEnoughSpacesError "S004"
           "At least two spaces required before inline"
   <-> exists p c t,
         line = p ++ c :: t /\ ~ In hash p /\ c <> space
         /\ (startswith t [hash] = true \/ startswith t [space; hash] = true))
  /\ (check_spaces line = Returned
      <-> ~ exists p c t,
            line = p ++ c :: t /\ ~ In hash p /\ c <> space
            /\ (startswith t [hash] = true \/ startswith t [space; hash] = true))
  /\ check_spaces (ln "print('x') # comment") =
       raise NotEnoughSpacesError "S004"
             "At least two spaces required before inline"
  /\ check_spaces (ln "print('x')  # comment") = Returned.
Proof.
  intros line. repeat split; try reflexivity; unfold check_spaces.
  - destruct (re_match spaces_re line) eqn:E; [|discriminate].
    intros _. now apply spaces_re_shape.
  - intros H. apply spaces_re_shape in H. now rewrite H.
  - destruct (re_match spaces_re line) eqn:E; [discriminate|].
    intros _ H. apply spaces_re_shape in H. congruence.
  - intros H. destruct (re_match spaces_re line) eqn:E; [|reflexivity].
    exfalso. apply H. now apply spaces_re_shape.
Qed.

(** C5, refuted as stated, in both directions.  A line of two [#] raises
    S004 although no character that is neither [#] nor a space stands before
    a [#], and no code precedes the comment; and a line whose first [#]
    keeps its two spaces is not reported although a later [#] follows a
    letter directly. *)
Lemma tight_comment_is_not_the_rule :
  (check_spaces (ln "##") =
     raise NotEnoughSpacesError "S004"
           "At least two spaces required before inline"
   /\ tight_comment (ln "##") = false)
  /\ (check_spaces (ln "x  # a#") = Returned
      /\ tight_comment (ln "x  # a#") = true).
Proof. repeat split; reflexivity. Qed.

(** *** S007: spaces after [class] and [def] *)

Lemma two_spaces_shape s :
  (2 <= List.length s /\ forallb (one " ") s = true) <->
  exists t, s = space :: space :: t /\ forallb (one " ") t = true.
Proof.
  split.
  - intros [Hn Hs]. destruct s as [|a [|b t]]; simpl in Hn; try lia.
    simpl in Hs. apply andb_true_iff in Hs. destruct Hs as [Ha Hs].
    apply andb_true_iff in Hs. destruct Hs as [Hb Ht].
    apply one_true in Ha, Hb. subst a b. now exists t.
  - intros [t [-> Ht]]. simpl. rewrite Ht. split; [lia | reflexivity].
Qed.

Lemma class_spaces_re_shape line :
  re_match class_spaces_re line = startswith line (lit "class  ").
Proof.
  apply eq_true_iff_eq. rewrite re_match_spec, startswith_spec.
  unfold class_spaces_re. split.
  - intros [u [v [-> H]]].
    apply matches_cat_inv in H. destruct H as [w [sp [-> [Hw Hsp]]]].
    apply matches_word in Hw. subst w.
    apply matches_atleast_chr, two_spaces_shape in Hsp.
    destruct Hsp as [t [-> _]]. exists (t ++ v).
    rewrite <- app_assoc. reflexivity.
  - intros [t ->]. exists (lit "class" ++ [space; space]), t.
    split; [reflexivity|]. constructor; [now apply matches_word|].
    apply matches_atleast_chr. split; [simpl; lia | reflexivity].
Qed.

Lemma def_spaces_re_shape line :
  re_match def_spaces_re line = startswith (lstrip line) (lit "def  ").
Proof.
  apply eq_true_iff_eq. rewrite re_match_spec, startswith_spec.
  unfold def_spaces_re, lstrip. split.
  - intros [u [v [-> H]]].
    apply matches_cat_inv in H. destruct H as [ws [w [-> [Hws H]]]].
    apply matches_cat_inv in H. destruct H as [d [sp [-> [Hd Hsp]]]].
    apply matches_star_chr in Hws. apply matches_word in Hd. subst d.
    apply matches_atleast_chr, two_spaces_shape in Hsp.
    destruct Hsp as [t [-> _]]. exists (t ++ v).
    rewrite <- !app_assoc. rewrite lstrip_with_app by exact Hws.
    reflexivity.
  - intros [t Ht].
    destruct (lstrip_with_split isspace line) as [ws [Hline Hws]].
    rewrite Ht in Hline.
    exists (ws ++ lit "def" ++ [space; space]), t.
    split; [rewrite Hline, <- !app_assoc; reflexivity|].
    constructor; [now apply matches_star_chr|].
    constructor; [now apply matches_word|].
    apply matches_atleast_chr. split; [simpl; lia | reflexivity].
Qed.

(** C6, as the code has it: both checks raise with code S007, each with a
    message of its own.  S007a is raised when the line starts with [class]
    and two spaces; S007b when, after its leading whitespace, the line
    starts with [def] and two spaces. *)
Theorem declaration_spaces_rules : forall line,
  check_class_declaration_spaces line =
    (if startswith line (lit "class  ")
     then Raised (Err TooManySpacesError (lit "S007")
                      (lit "Too many spaces after 'class'"))
     else Returned)
  /\ check_function_declaration_spaces line =
       (if startswith (lstrip line) (lit "def  ")
        then Raised (Err TooManySpacesError (lit "S007")
                         (lit "Too many spaces after 'def'"))
        else Returned).
Proof.
  intros line.
  unfold check_class_declaration_spaces, check_function_declaration_spaces.
  now rewrite class_spaces_re_shape, def_spaces_re_shape.
Qed.

(** C6, refuted as stated: the message raised for a [class] line is not the
    combined text, and neither is the one raised for a [def] line. *)
Lemma S007_messages_differ :
  (exists err, check_class_declaration_spaces (ln "class  Foo:") = Raised err
               /\ args0 err = lit "S007"
               /\ args1 err <> lit "Too many spaces after 'class'/'def'")
  /\ (exists err, check_function_declaration_spaces (ln "def  foo():") = Raised err
                  /\ args0 err = lit "S007"
                  /\ args1 err <> lit "Too many spaces after 'class'/'def'").
Proof.
  split; eexists; (split; [reflexivity|]); (split; [reflexivity|]);
    vm_compute; discriminate.
Qed.

Lemma path_file_scan lines : forall self,
  path_file (fold_left next_line lines self) = path_file self.
Proof.
  induction lines as [|x l IH]; intros s; simpl; [reflexivity|].
  now rewrite IH, path_file_next_line.
Qed.

(** *** S006: runs of blank lines *)

Lemma blank_dec line : str_eqb (strip line) [] = true <-> blank line.
Proof. apply str_eqb_spec. Qed.

Lemma count_next_line_blank self line :
  blank line ->
  count_blank_lines_in_row (next_line self line) =
  count_blank_lines_in_row self + 1.
Proof.
  intros H. apply blank_dec in H. unfold next_line, check_blank_lines.
  now rewrite H.
Qed.

Lemma count_next_line_code self line :
  ~ blank line -> count_blank_lines_in_row (next_line self line) = 0.
Proof.
  intros H. unfold next_line, check_blank_lines.
  destruct (str_eqb (strip line) []) eqn:E.
  - now apply blank_dec in E.
  - now destruct (2 <? count_blank_lines_in_row self).
Qed.

Lemma count_after_blank_run run : forall self,
  Forall blank run ->
  count_blank_lines_in_row (fold_left next_line run self) =
  count_blank_lines_in_row self + List.length run.
Proof.
  induction run as [|line rest IH]; intros self H; simpl; [lia|].
  inversion H as [|? ? Hline Hrest]; subst.
  rewrite IH by assumption. rewrite count_next_line_blank by assumption. lia.
Qed.

(** The counter is zero at the start of a maximal run. *)
Lemma count_before_run path before :
  before = [] \/ (exists b l, before = b ++ [l] /\ ~ blank l) ->
  count_blank_lines_in_row (fold_left next_line before (init path)) = 0.
Proof.
  intros [->|[b [l [-> Hl]]]]; [reflexivity|].
  rewrite fold_left_app. simpl. now apply count_next_line_code.
Qed.

Lemma count_at_app c n (a b : stdout) :
  count_at c n (a ++ b) = count_at c n a + count_at c n b.
Proof. unfold count_at. now rewrite filter_app, length_app. Qed.

Lemma count_at_other_lines c n (out : stdout) :
  (forall d, In d out -> number_line d <> n) -> count_at c n out = 0.
Proof.
  unfold count_at. induction out as [|d out IH]; intros H; [reflexivity|].
  simpl. assert (Hd : (number_line d =? n) = false).
  { apply Nat.eqb_neq. apply H. now left. }
  rewrite Hd, andb_false_r. apply IH. intros d' Hd'. apply H. now right.
Qed.

Lemma count_S006_blank_lines self n i line :
  count_at "S006" i (report self n (snd (check_blank_lines self line))) =
  if str_eqb (strip line) [] then 0
  else if 2 <? count_blank_lines_in_row self
       then (if n =? i then 1 else 0) else 0.
Proof.
  unfold check_blank_lines.
  destruct (str_eqb (strip line) []); [reflexivity|].
  destruct (2 <? count_blank_lines_in_row self); [|reflexivity].
  unfold count_at. simpl. now destruct (n =? i).
Qed.

(** Of the eight checks only [__check_blank_lines] raises S006. *)
Lemma count_S006_line_output self n i line :
  count_at "S006" i (line_output self n line) =
  count_at "S006" i (report self n (snd (check_blank_lines self line))).
Proof.
  unfold line_output. rewrite !count_at_app.
  assert (H1 : count_at "S006" i (report self n (check_long line)) = 0).
  { unfold check_long. now destruct (79 <? List.length line). }
  assert (H2 : count_at "S006" i (report self n (check_indentation line)) = 0).
  { unfold check_indentation.
    now destruct (negb (str_eqb line [nl])
                  && negb ((List.length line - List.length (lstrip line)) mod 4 =? 0))%bool. }
  assert (H3 : count_at "S006" i (report self n (check_semicolon line)) = 0).
  { unfold check_semicolon.
    now destruct (endswith (rstrip_with (eqc space)
                    (rstrip_with (eqc nl) (split_head hash line))) [semicolon]). }
  assert (H4 : count_at "S006" i (report self n (check_spaces line)) = 0).
  { unfold check_spaces. now destruct (re_match spaces_re line). }
  assert (H5 : count_at "S006" i (report self n (check_todo_existing line)) = 0).
  { unfold check_todo_existing. now destruct (re_search todo_re line). }
  assert (H7 : count_at "S006" i
                 (report self n (check_class_declaration_spaces line)) = 0).
  { unfold check_class_declaration_spaces.
    now destruct (re_match class_spaces_re line). }
  assert (H8 : count_at "S006" i
                 (report self n (check_function_declaration_spaces line)) = 0).
  { unfold check_function_declaration_spaces.
    now destruct (re_match def_spaces_re line). }
  lia.
Qed.

Lemma count_S006_blank_run run : forall self k i,
  Forall blank run -> count_at "S006" i (scan_output self k run) = 0.
Proof.
  induction run as [|line rest IH]; intros self k i H; [reflexivity|].
  inversion H as [|? ? Hline Hrest]; subst. simpl.
  rewrite count_at_app, IH by assumption.
  rewrite count_S006_line_output, count_S006_blank_lines.
  apply blank_dec in Hline. now rewrite Hline.
Qed.

(** C3: take a maximal run of blank lines ([before] is empty or ends in a
    line that is not blank) followed by a line that is not blank.  The scan
    prints S006 for that line once when the run is longer than two and not
    at all otherwise, and never for a line of the run; the counter is zero
    after every line that is not blank, and after every S006. *)
Theorem blank_run_rule : forall path before run code_line after,
  (before = [] \/ exists b l, before = b ++ [l] /\ ~ blank l) ->
  Forall blank run ->
  ~ blank code_line ->
  let out :=
    snd (scan_lines (init path, []) (before ++ run ++ code_line :: after)) in
  let n := List.length before + List.length run + 1 in
  count_at "S006" n out = (if 2 <? List.length run then 1 else 0)
  /\ (2 < List.length run ->
      In (Diagnostic path n (lit "S006")
            (lit "More than two blank lines preceding a code line")) out)
  /\ (forall i, List.length before < i < n -> count_at "S006" i out = 0)
  /\ (forall self line,
        ~ blank line ->
        count_blank_lines_in_row (fst (check_blank_lines self line)) = 0)
  /\ (forall self line err,
        snd (check_blank_lines self line) = Raised err ->
        count_blank_lines_in_row (fst (check_blank_lines self line)) = 0).
Proof.
  intros path before run code_line after Hmax Hrun Hcode out n.
  assert (Hout : out =
    scan_output (init path) 1 before
    ++ scan_output (fold_left next_line before (init path))
                   (1 + List.length before) run
    ++ line_output (fold_left next_line run
                      (fold_left next_line before (init path))) n code_line
    ++ scan_output (next_line (fold_left next_line run
                      (fold_left next_line before (init path))) code_line)
                   (S n) after).
  { unfold out. rewrite scan_lines_unfold. cbn [snd app].
    rewrite !scan_output_app. cbn [scan_output].
    now replace (1 + List.length before + List.length run) with n
      by (unfold n; lia). }
  set (s1 := fold_left next_line before (init path)) in *.
  set (s2 := fold_left next_line run s1) in *.
  assert (Hcount : count_blank_lines_in_row s2 = List.length run).
  { unfold s2. rewrite count_after_blank_run by assumption.
    unfold s1. now rewrite count_before_run. }
  assert (Hne : str_eqb (strip code_line) [] = false).
  { apply not_true_iff_false. intros E. now apply blank_dec in E. }
  assert (Hbefore : forall i, List.length before < i ->
            count_at "S006" i (scan_output (init path) 1 before) = 0).
  { intros i Hi. apply count_at_other_lines. intros d Hd.
    apply scan_output_number_line in Hd. lia. }
  assert (Hafter : forall i, i <= n ->
            count_at "S006" i
              (scan_output (next_line s2 code_line) (S n) after) = 0).
  { intros i Hi. apply count_at_other_lines. intros d Hd.
    apply scan_output_number_line in Hd. lia. }
  split; [|split; [|split; [|split]]].
  - rewrite Hout, !count_at_app.
    rewrite Hbefore by (unfold n; lia).
    rewrite count_S006_blank_run by assumption.
    rewrite Hafter by lia.
    rewrite count_S006_line_output, count_S006_blank_lines.
    rewrite Hne, Hcount, Nat.eqb_refl.
    destruct (2 <? List.length run); reflexivity.
  - intros Hlong. rewrite Hout. rewrite !in_app_iff. right. right. left.
    unfold line_output. rewrite !in_app_iff. do 5 right. left.
    unfold check_blank_lines. rewrite Hne, Hcount.
    apply Nat.ltb_lt in Hlong. rewrite Hlong. simpl. left.
    f_equal. unfold s2, s1. now rewrite !path_file_scan.
  - intros i Hi. rewrite Hout, !count_at_app.
    rewrite Hbefore by lia.
    rewrite count_S006_blank_run by assumption.
    rewrite Hafter by lia.
    rewrite count_S006_line_output, count_S006_blank_lines.
    rewrite Hne. destruct (2 <? count_blank_lines_in_row s2); [|reflexivity].
    assert (Hni : (n =? i) = false) by (apply Nat.eqb_neq; lia).
    now rewrite Hni.
  - intros self line Hline. now apply count_next_line_code.
  - intros self line err. unfold check_blank_lines.
    destruct (str_eqb (strip line) []); [discriminate|].
    now destruct (2 <? count_blank_lines_in_row self).
Qed.

(** The rule at work: three blank lines before line 5 give one S006 there;
    two blank lines before line 5 give none. *)
Lemma blank_run_rule_witness :
  count_at "S006" 5
    (snd (scan_lines (init (lit "a.py"), [])
            ([ln "x = 1"] ++ [ln ""; ln "  "; ln ""] ++ [ln "y = 2"]))) = 1
  /\ count_at "S006" 5
       (snd (scan_lines (init (lit "a.py"), [])
               ([ln "x = 1"; ln "z = 3"] ++ [ln ""; ln "  "] ++ [ln "y = 2"]))) = 0.
Proof.
  split.
  - refine (proj1 (@blank_run_rule (lit "a.py") [ln "x = 1"]
                     [ln ""; ln "  "; ln ""] (ln "y = 2") [] _ _ _)).
    + right. exists [], (ln "x = 1"). split; [reflexivity|].
      unfold blank. vm_compute. discriminate.
    + repeat constructor.
    + unfold blank. vm_compute. discriminate.
  - refine (proj1 (@blank_run_rule (lit "a.py") [ln "x = 1"; ln "z = 3"]
                     [ln ""; ln "  "] (ln "y = 2") [] _ _ _)).
    + right. exists [ln "x = 1"], (ln "z = 3"). split; [reflexivity|].
      unfold blank. vm_compute. discriminate.
    + repeat constructor.
    + unfold blank. vm_compute. discriminate.
Defined.

End LineScanner.

(* ===================================================================== *)
(** ** The tree inspector *)
(* ===================================================================== *)

Module TreeInspector.

(** *** Character classes of the naming patterns *)

Lemma between_true lo hi c : between lo hi c = true <-> (lo <= c <= hi)%N.
Proof. unfold between. now rewrite andb_true_iff, !N.leb_le. Qed.

Lemma not_lower_underscore c :
  neg (union (range "a" "z") (one "_")) c = true <->
  ~ lowercase c /\ c <> underscore.
Proof.
  unfold neg, union, range, lowercase.
  rewrite negb_true_iff, orb_false_iff, <- !not_true_iff_false.
  now rewrite between_true, one_true.
Qed.

(** *** S009: function names *)

Lemma all_underscores u :
  forallb (one "_") u = true <-> u = repeat underscore (List.length u).
Proof.
  induction u as [|c u IH]; simpl; [tauto|].
  rewrite andb_true_iff, one_true, IH. split.
  - intros [-> <-]. reflexivity.
  - intros [= -> H]. split; [reflexivity | exact H].
Qed.

(** What [[_]{,2}[^a-z_].*] finds at the start of a name. *)
Lemma function_name_re_shape name :
  re_match function_name_re name = true <-> bad_function_name name.
Proof.
  rewrite re_match_spec. unfold function_name_re, bad_function_name. split.
  - intros [u [v [-> H]]].
    apply matches_cat_inv in H. destruct H as [us [w [-> [Hus H]]]].
    apply matches_cat_inv in H. destruct H as [w1 [w2 [-> [H1 _]]]].
    apply matches_atmost_chr in Hus. destruct Hus as [Hlen Hus].
    apply all_underscores in Hus.
    apply matches_chr_inv in H1. destruct H1 as [c [-> Hc]].
    apply not_lower_underscore in Hc.
    exists (List.length us), c, (w2 ++ v).
    split; [exact Hlen|]. split; [|exact Hc].
    rewrite <- Hus, <- !app_assoc. reflexivity.
  - intros [k [c [rest [Hk [-> Hc]]]]].
    exists (repeat underscore k ++ [c] ++ []), rest.
    split; [now rewrite <- !app_assoc|].
    apply M_cat; [|apply M_cat; [|apply M_star_nil]].
    + apply matches_atmost_chr. rewrite repeat_length. split; [exact Hk|].
      apply all_underscores. now rewrite repeat_length.
    + constructor. now apply not_lower_underscore.
Qed.

(** Three underscores at the start put a name out of the pattern's reach:
    none of its first three characters can be the offending one. *)
Lemma three_underscores_pass rest :
  ~ bad_function_name (underscore :: underscore :: underscore :: rest).
Proof.
  intros [k [c [t [Hk [Hname [_ Hc]]]]]].
  destruct k as [|[|[|k]]]; simpl in Hname; try lia;
    injection Hname; intros; congruence.
Qed.

(** C2, as the code has it: a function name is reported with S009 exactly
    when it consists of zero, one or two underscores, then a character that
    is neither a lowercase letter nor an underscore, then anything.  A name
    that starts with three underscores is therefore never reported.
    [__Foo] is reported; [__init__] and [___bad] are not. *)
Theorem function_name_rule :
  forall self out name lineno args defaults body others,
  let node := FunctionDef name lineno args defaults body others in
  let S009 :=
    Diagnostic (path_file self) lineno (lit "S009")
      (lit "Function name '" ++ name ++ lit "' should use snake_case") in
  (bad_function_name name <-> check_function_name self out node = out ++ [S009])
  /\ (~ bad_function_name name <-> check_function_name self out node = out)
  /\ (forall rest,
        check_function_name self out
          (FunctionDef (lit "___" ++ rest) lineno args defaults body others)
        = out)
  /\ bad_function_name (lit "__Foo")
  /\ ~ bad_function_name (lit "__init__")
  /\ ~ bad_function_name (lit "___bad").
Proof.
  intros self out name lineno args defaults body others node S009.
  assert (Hne : out ++ [S009] <> out).
  { intros H. apply (f_equal (@List.length diagnostic)) in H.
    rewrite length_app in H. simpl in H. lia. }
  assert (Hpass : forall n, ~ bad_function_name n ->
            re_match function_name_re n = false).
  { intros n Hn. apply not_true_iff_false. intros E.
    now apply function_name_re_shape in E. }
  unfold node. cbn [check_function_name]. unfold print_error. fold S009.
  split; [|split; [|split; [|split; [|split]]]].
  - split.
    + intros H. apply function_name_re_shape in H. now rewrite H.
    + destruct (re_match function_name_re name) eqn:E.
      * intros _. now apply function_name_re_shape.
      * intros H. symmetry in H. contradiction.
  - split.
    + intros H. now rewrite (Hpass _ H).
    + destruct (re_match function_name_re name) eqn:E.
      * intros H. contradiction.
      * intros _ H. apply function_name_re_shape in H. congruence.
  - intros rest.
    change (lit "___" ++ rest)
      with (underscore :: underscore :: underscore :: rest).
    now rewrite (Hpass _ (@three_underscores_pass rest)).
  - apply function_name_re_shape. reflexivity.
  - intros H. apply function_name_re_shape in H. discriminate.
  - apply (@three_underscores_pass (lit "bad")).
Qed.

(** C2, refuted as stated: visiting a function named [___bad] prints
    nothing. *)
Lemma three_underscores_not_flagged :
  check_function_name (init (lit "a.py")) []
    (FunctionDef (lit "___bad") 1 [] [] [] []) = []
  /\ re_match function_name_re (lit "___bad") = false.
Proof. split; reflexivity. Qed.

(** *** Loops that print *)

Section PrintingLoops.
Context {A : Type}.

Lemma fold_left_print (P : A -> bool) (mk : A -> diagnostic) l : forall out,
  fold_left (fun out x => if P x then out ++ [mk x] else out) l out =
  out ++ map mk (filter P l).
Proof.
  induction l as [|x l IH]; intros out; simpl.
  - now rewrite app_nil_r.
  - rewrite IH. destruct (P x); [|reflexivity].
    simpl. now rewrite <- app_assoc.
Qed.

Lemma fold_left_append (g : A -> list diagnostic) l : forall out,
  fold_left (fun out x => out ++ g x) l out = out ++ flat_map g l.
Proof.
  induction l as [|x l IH]; intros out; simpl.
  - now rewrite app_nil_r.
  - now rewrite IH, <- app_assoc.
Qed.

Lemma fold_left_pointwise (f g : stdout -> A -> stdout) l :
  (forall out x, f out x = g out x) ->
  forall out, fold_left f l out = fold_left g l out.
Proof.
  intros H. induction l as [|x l IH]; intros out; simpl; [reflexivity|].
  now rewrite H, IH.
Qed.
End PrintingLoops.

Lemma filter_map_swap {A B : Type} (f : A -> B) (P : B -> bool) l :
  filter P (map f l) = map f (filter (fun a => P (f a)) l).
Proof.
  induction l as [|x l IH]; simpl; [reflexivity|].
  rewrite IH. now destruct (P (f x)).
Qed.

(** *** S010 and S012: arguments and defaults *)

(** What [[^a-z_].*] finds at the start of a name. *)
Lemma argument_name_re_shape name :
  re_match argument_name_re name = bad_argument_name name.
Proof.
  destruct name as [|c rest]; [reflexivity|].
  apply eq_true_iff_eq. rewrite re_match_spec.
  unfold argument_name_re, bad_argument_name. split.
  - intros [u [v [Huv H]]].
    apply matches_cat_inv in H. destruct H as [w1 [w2 [-> [H1 _]]]].
    apply matches_chr_inv in H1. destruct H1 as [d [-> Hd]].
    injection Huv as ->. exact Hd.
  - intros Hc. exists ([c] ++ []), rest. split; [reflexivity|].
    apply M_cat; [now constructor | apply M_star_nil].
Qed.

Lemma check_arguments_unfold self out name lineno args defaults body others :
  check_arguments self out (FunctionDef name lineno args defaults body others) =
  out
  ++ map (fun a =>
            Diagnostic (path_file self) lineno (lit "S010")
              (lit "Argument name '" ++ arg a ++ lit "' should be snake_case"))
         (filter (fun a => bad_argument_name (arg a)) args)
  ++ map (fun _ =>
            Diagnostic (path_file self) lineno (lit "S012")
              (lit "The default argument value is mutable"))
         (filter is_List_Dict_Set defaults).
Proof.
  cbn [check_arguments]. unfold print_error.
  rewrite (fold_left_print is_List_Dict_Set
             (fun _ => Diagnostic (path_file self) lineno (lit "S012")
                         (lit "The default argument value is mutable"))).
  rewrite (fold_left_print (re_match argument_name_re)
             (fun name => Diagnostic (path_file self) lineno (lit "S010")
                (lit "Argument name '" ++ name ++ lit "' should be snake_case"))).
  rewrite filter_map_swap, map_map, <- app_assoc.
  do 3 f_equal. apply filter_ext. intros a. apply argument_name_re_shape.
Qed.

(** *** S011: assignments of a function body *)

Lemma target_reports self targets :
  map (fun var =>
         Diagnostic (path_file self) (lineno_of var) (lit "S011")
           (lit "Variable '" ++ id_of var
              ++ lit "' in function should be snake_case"))
      (filter (fun var => negb (re_match_dollar variable_name_re (id_of var)))
              (filter is_Name targets)) =
  flat_map
    (fun target =>
       match target with
       | Name id lineno =>
           if re_match_dollar variable_name_re id then []
           else [Diagnostic (path_file self) lineno (lit "S011")
                   (lit "Variable '" ++ id
                      ++ lit "' in function should be snake_case")]
       | _ => []
       end)
    targets.
Proof.
  induction targets as [|t targets IH]; [reflexivity|].
  destruct t; simpl; try exact IH.
  destruct (re_match_dollar variable_name_re id); simpl;
    [exact IH | f_equal; exact IH].
Qed.

Lemma check_function_variables_unfold
    self out name lineno args defaults body others :
  check_function_variables self out
    (FunctionDef name lineno args defaults body others) =
  out ++ variable_reports self body.
Proof.
  cbn [check_function_variables]. unfold print_error.
  rewrite (@fold_left_pointwise _ _
             (fun out child => out ++
                flat_map
                  (fun target =>
                     match target with
                     | Name id lineno =>
                         if re_match_dollar variable_name_re id then []
                         else [Diagnostic (path_file self) lineno (lit "S011")
                                 (lit "Variable '" ++ id
                                    ++ lit "' in function should be snake_case")]
                     | _ => []
                     end)
                  (targets_of child))).
  2:{ intros o child. cbv beta.
      rewrite (fold_left_print
                 (fun var => negb (re_match_dollar variable_name_re (id_of var)))
                 (fun var =>
                    Diagnostic (path_file self) (lineno_of var) (lit "S011")
                      (lit "Variable '" ++ id_of var
                         ++ lit "' in function should be snake_case"))).
      now rewrite target_reports. }
  rewrite fold_left_append. f_equal. unfold variable_reports.
  induction body as [|stmt body IH]; [reflexivity|].
  destruct stmt; simpl; try exact IH. f_equal. exact IH.
Qed.

(** *** Visiting a node *)

Lemma visit_function_def self out name lineno args defaults body others :
  visit self out (FunctionDef name lineno args defaults body others) =
  out ++ function_reports self name lineno args defaults body.
Proof.
  unfold visit. cbn [is_ClassDef is_FunctionDef].
  rewrite check_function_variables_unfold, check_arguments_unfold.
  cbn [check_function_name]. unfold function_reports, print_error.
  destruct (re_match function_name_re name); simpl;
    now rewrite <- !app_assoc.
Qed.

Lemma visit_append self out node :
  visit self out node = out ++ visit self [] node.
Proof.
  destruct node; try (unfold visit; simpl; now rewrite app_nil_r).
  - unfold visit. simpl. unfold print_error.
    destruct (re_match class_name_re name); [reflexivity | now rewrite app_nil_r].
  - now rewrite !visit_function_def.
Qed.

Lemma is_List_Dict_Set_spec default :
  is_List_Dict_Set default = mutable_literal default.
Proof. destruct default; reflexivity. Qed.

(** C7, as the code has it: visiting a function definition prints, in this
    order, the S009 line for its name, one S010 line per offending entry of
    [node.args.args] (the positional-or-keyword parameters), one S012 line
    per list, dict or set display among [node.args.defaults] (the defaults
    of the positional parameters), and then the S011 lines of its body.
    Every S010 and S012 line carries the line number of the definition,
    whatever the position of the argument or of the default.  Nothing else
    under the definition is looked at: positional-only and keyword-only
    parameters, [*args], [**kwargs] and keyword-only defaults change
    nothing.  For
<<
    def Bad(X,
            y, z=[], w={}, v=None): ...
>>
    the lines printed are S009, S010 for [X], and S012 twice, all on the
    line of [def]. *)
Theorem function_checks_order :
  forall self out name lineno args defaults body others,
  let node := FunctionDef name lineno args defaults body others in
  let S009s :=
    if re_match function_name_re name then
      [Diagnostic (path_file self) lineno (lit "S009")
         (lit "Function name '" ++ name ++ lit "' should use snake_case")]
    else [] in
  let S010s :=
    map (fun a =>
           Diagnostic (path_file self) lineno (lit "S010")
             (lit "Argument name '" ++ arg a ++ lit "' should be snake_case"))
        (filter (fun a => bad_argument_name (arg a)) args) in
  let S012s :=
    map (fun _ =>
           Diagnostic (path_file self) lineno (lit "S012")
             (lit "The default argument value is mutable"))
        (filter mutable_literal defaults) in
  visit self out node = out ++ S009s ++ S010s ++ S012s ++ variable_reports self body
  /\ check_arguments self (check_function_name self out node) node
     = out ++ S009s ++ S010s ++ S012s
  /\ (forall d, In d (S010s ++ S012s) -> number_line d = lineno)
  /\ List.length S010s
     = List.length (filter (fun a => bad_argument_name (arg a)) args)
  /\ List.length S012s = List.length (filter mutable_literal defaults)
  /\ (forall others',
        visit self out (FunctionDef name lineno args defaults body others')
        = visit self out node)
  /\ visit self []
       (FunctionDef (lit "Bad") 4
          [Arg (lit "X") 4; Arg (lit "y") 5; Arg (lit "z") 5; Arg (lit "w") 5;
           Arg (lit "v") 5]
          [List_ [] 5; Dict [] 5; Other []] [] [])
     = [Diagnostic (path_file self) 4 (lit "S009")
          (lit "Function name 'Bad' should use snake_case");
        Diagnostic (path_file self) 4 (lit "S010")
          (lit "Argument name 'X' should be snake_case");
        Diagnostic (path_file self) 4 (lit "S012")
          (lit "The default argument value is mutable");
        Diagnostic (path_file self) 4 (lit "S012")
          (lit "The default argument value is mutable")].
Proof.
  intros self out name lineno args defaults body others node S009s S010s S012s.
  assert (Hdefaults : filter is_List_Dict_Set defaults
                      = filter mutable_literal defaults)
    by (apply filter_ext; intros d; apply is_List_Dict_Set_spec).
  split; [|split; [|split; [|split; [|split; [|split]]]]].
  - unfold node. rewrite visit_function_def. unfold function_reports.
    now rewrite Hdefaults.
  - unfold node. rewrite check_arguments_unfold, Hdefaults.
    cbn [check_function_name]. unfold print_error. fold S009s S010s S012s.
    unfold S009s. destruct (re_match function_name_re name);
      [now rewrite <- !app_assoc | reflexivity].
  - intros d Hd. apply in_app_iff in Hd. unfold S010s, S012s in Hd.
    destruct Hd as [Hd|Hd]; apply in_map_iff in Hd;
      destruct Hd as [x [<- _]]; reflexivity.
  - unfold S010s. apply length_map.
  - unfold S012s. apply length_map.
  - intros others'. unfold node. now rewrite !visit_function_def.
  - reflexivity.
Qed.

(** C7, refuted as stated: in
<<
    def g(A, /, *, E={1}): ...
>>
    [A] is a positional argument whose name starts with a capital and the
    default of [E] is a set display, and the visit prints nothing: neither
    [node.args.posonlyargs] nor [node.args.kw_defaults] is read. *)
Lemma unlisted_parameters_are_not_checked :
  visit (init (lit "a.py")) []
    (FunctionDef (lit "g") 1 [] [] [Other []]
       [ArgNode (Arg (lit "A") 1); ArgNode (Arg (lit "E") 1);
        Set_ [Other []] 1]) = []
  /\ bad_argument_name (lit "A") = true
  /\ mutable_literal (Set_ [Other []] 1) = true.
Proof. repeat split; reflexivity. Qed.

(** *** The shape of a variable name *)

Lemma matches_plus_chr (p : cls) s :
  matches (Plus (Chr p)) s <-> s <> [] /\ forallb p s = true.
Proof.
  unfold Plus. split.
  - intros H. apply matches_cat_inv in H. destruct H as [u [v [-> [Hu Hv]]]].
    apply matches_chr_inv in Hu. destruct Hu as [c [-> Hc]].
    apply matches_star_chr in Hv. simpl. rewrite Hc, Hv.
    split; [discriminate | reflexivity].
  - intros [Hne Hs]. destruct s as [|c s]; [contradiction|].
    simpl in Hs. apply andb_true_iff in Hs. destruct Hs as [Hc Hs].
    change (c :: s) with ([c] ++ s).
    constructor; [now constructor | now apply matches_star_chr].
Qed.

Lemma lower_or_digit c :
  union (range "a" "z") (range "0" "9") c = true <-> lowercase c \/ digit c.
Proof.
  unfold union, range, lowercase, digit.
  now rewrite orb_true_iff, !between_true.
Qed.

Lemma segment_forallb s :
  segment s <->
  s <> [] /\ forallb (union (range "a" "z") (range "0" "9")) s = true.
Proof.
  unfold segment. rewrite forallb_forall, Forall_forall.
  split; intros [Hne H]; (split; [exact Hne|]);
    intros c Hc; apply lower_or_digit, H, Hc.
Qed.

(** A word of [Star a] is a concatenation of words of [a]. *)
Lemma matches_star_concat a s :
  matches (Star a) s <-> exists ws, s = List.concat ws /\ Forall (matches a) ws.
Proof.
  split.
  - intros H. remember (Star a) as r eqn:Hr. revert Hr.
    induction H as [| | | | | |a' u v Hu _ Hv IHv]; try discriminate.
    + intros _. now exists [].
    + intros [= ->]. destruct (IHv eq_refl) as [ws [-> Hws]].
      exists (u :: ws). split; [reflexivity | now constructor].
  - intros [ws [-> Hws]]. induction Hws as [|w ws Hw _ IH]; simpl.
    + apply M_star_nil.
    + now apply M_star_more.
Qed.

Lemma tail_segments t :
  matches (Star (Cat (Chr (one "_"))
                     (Plus (Chr (union (range "a" "z") (range "0" "9")))))) t
  <-> exists segs,
        t = List.concat (map (cons underscore) segs) /\ Forall segment segs.
Proof.
  rewrite matches_star_concat. split.
  - intros [ws [-> Hws]]. induction Hws as [|w ws Hw _ [segs [Hs Hsegs]]].
    + now exists [].
    + apply matches_cat_inv in Hw. destruct Hw as [u [seg [-> [Hu Hseg]]]].
      apply matches_chr_inv in Hu. destruct Hu as [c [-> Hc]].
      apply one_true in Hc. subst c.
      apply matches_plus_chr, segment_forallb in Hseg.
      exists (seg :: segs). simpl. rewrite Hs.
      split; [reflexivity | now constructor].
  - intros [segs [-> Hsegs]]. exists (map (cons underscore) segs).
    split; [reflexivity|]. apply Forall_map.
    eapply Forall_impl; [|exact Hsegs]. intros seg Hseg.
    change (underscore :: seg) with ([underscore] ++ seg).
    constructor; [now constructor|].
    now apply matches_plus_chr, segment_forallb.
Qed.

Lemma variable_name_re_shape id :
  matches variable_name_re id <-> snake_case_variable id.
Proof.
  unfold variable_name_re, snake_case_variable. split.
  - intros H. apply matches_cat_inv in H. destruct H as [u [v [-> [Hu H]]]].
    apply matches_cat_inv in H. destruct H as [seg [t [-> [Hseg Ht]]]].
    apply matches_chr_inv in Hu. destruct Hu as [c [-> Hc]].
    apply between_true in Hc.
    apply matches_plus_chr, segment_forallb in Hseg.
    apply tail_segments in Ht. destruct Ht as [segs [-> Hsegs]].
    now exists c, seg, segs.
  - intros [c [seg [segs [-> [Hc [Hseg Hsegs]]]]]].
    change (c :: seg ++ List.concat (map (cons underscore) segs))
      with ([c] ++ seg ++ List.concat (map (cons underscore) segs)).
    constructor; [constructor; now apply between_true|].
    constructor; [now apply matches_plus_chr, segment_forallb|].
    apply tail_segments. now exists segs.
Qed.

(** A match that must reach [$]: the whole text, or all of it but a final
    newline. *)
Lemma re_match_dollar_shape r id :
  re_match_dollar r id = true <->
  matches r id \/ exists w, id = w ++ [nl] /\ matches r w.
Proof.
  unfold re_match_dollar. rewrite fullmatch_spec. split.
  - intros H. apply matches_cat_inv in H. destruct H as [u [v [-> [Hu Hv]]]].
    apply matches_opt_chr in Hv. destruct Hv as [->|[c [-> Hc]]].
    + left. now rewrite app_nil_r.
    + right. apply eqc_true in Hc. subst c. now exists u.
  - intros [H|[w [-> H]]].
    + rewrite <- (app_nil_r id). constructor; [exact H|].
      apply matches_opt_chr. now left.
    + constructor; [exact H|]. apply matches_opt_chr. right.
      exists nl. split; [reflexivity | apply eqc_refl].
Qed.

(** C8, as the code has it: for each assignment statement standing directly
    in the body of a function, each target that is a plain name and does
    not match [^[a-z][a-z0-9]+(_[a-z0-9]+)*$] is reported with S011 on the
    line of that target name, which is the line of the assignment whenever
    the target stands on the statement's first line.  The pattern accepts
    exactly the names made of a lowercase letter, a non-empty segment of
    lowercase letters and digits, and further such segments each led by an
    underscore.  So [Result] and [r] are reported and [result_1] is not, and
    an assignment nested in another statement is not looked at. *)
Theorem function_variables_rule :
  forall self out name lineno args defaults body others value,
  check_function_variables self out
    (FunctionDef name lineno args defaults body others)
  = out ++ variable_reports self body
  /\ (forall id,
        re_match_dollar variable_name_re id = true <->
        snake_case_variable id
        \/ exists w, id = w ++ [nl] /\ snake_case_variable w)
  /\ variable_reports self
       [Assign [Name (lit "Result") 2] value 2;
        Assign [Name (lit "result_1") 3] value 3;
        Assign [Name (lit "r") 4] value 4]
     = [Diagnostic (path_file self) 2 (lit "S011")
          (lit "Variable 'Result' in function should be snake_case");
        Diagnostic (path_file self) 4 (lit "S011")
          (lit "Variable 'r' in function should be snake_case")]
  /\ variable_reports self [Other [Assign [Name (lit "Result") 2] value 2]] = []
  /\ (forall id,
        ~ In nl id ->
        (re_match_dollar variable_name_re id = false <-> ~ snake_case_variable id))
  /\ ~ snake_case_variable (lit "Result")
  /\ snake_case_variable (lit "result_1")
  /\ ~ snake_case_variable (lit "r").
Proof.
  intros self out name lineno args defaults body others value.
  assert (Hshape : forall id,
            snake_case_variable id <-> fullmatch variable_name_re id = true).
  { intros id. now rewrite fullmatch_spec, variable_name_re_shape. }
  split; [apply check_function_variables_unfold|].
  split.
  { intros id. rewrite re_match_dollar_shape, !variable_name_re_shape.
    split; intros [H|[w [-> H]]]; auto; right; exists w;
      (split; [reflexivity|]); now apply variable_name_re_shape. }
  split; [reflexivity|]. split; [reflexivity|].
  split; [|split; [|split]].
  - intros id Hnl. rewrite <- not_true_iff_false, re_match_dollar_shape.
    rewrite variable_name_re_shape. split.
    + intros H Hs. apply H. now left.
    + intros H [Hs|[w [-> _]]]; [exact (H Hs)|].
      apply Hnl, in_app_iff. right. now left.
  - intros H. apply Hshape in H. discriminate.
  - apply Hshape. reflexivity.
  - intros H. apply Hshape in H. discriminate.
Qed.

(** C8, refuted as stated: an assignment that starts on line 2 and whose
    target name stands on line 3,
<<
    def f():
        (
            Bb
        ) = 1
>>
    is reported on line 3, the line of the name, not on the line of the
    assignment. *)
Lemma S011_line_is_the_target_line :
  let stmt := Assign [Name (lit "Bb") 3] (Other []) 2 in
  map number_line
    (check_function_variables (init (lit "a.py")) []
       (FunctionDef (lit "f") 1 [] [] [stmt] [])) = [3]
  /\ lineno_of stmt = 2.
Proof. split; reflexivity. Qed.

(** *** The walk *)

Lemma queue_size_app a b : queue_size (a ++ b) = queue_size a + queue_size b.
Proof. unfold queue_size. now rewrite map_app, list_sum_app. Qed.

Lemma node_size_children n :
  node_size n = S (queue_size (iter_child_nodes n)).
Proof.
  destruct n; simpl; rewrite ?queue_size_app; unfold queue_size; simpl; lia.
Qed.

Lemma queue_size_step n rest fuel :
  queue_size (n :: rest) <= S fuel ->
  queue_size (rest ++ iter_child_nodes n) <= fuel.
Proof.
  rewrite queue_size_app. unfold queue_size. simpl.
  rewrite node_size_children. unfold queue_size. lia.
Qed.

Lemma queue_size_cons_pos n rest : ~ queue_size (n :: rest) <= 0.
Proof. unfold queue_size. simpl. rewrite node_size_children. lia. Qed.

(** Once the fuel covers the nodes waiting in the queue and below, more
    fuel changes nothing: the loop has stopped on an empty queue. *)
Lemma walk_loop_more fuel : forall todo,
  queue_size todo <= fuel -> walk_loop (S fuel) todo = walk_loop fuel todo.
Proof.
  induction fuel as [|fuel IH]; intros [|n rest] H; try reflexivity.
  - now apply queue_size_cons_pos in H.
  - change (n :: walk_loop (S fuel) (rest ++ iter_child_nodes n)
            = n :: walk_loop fuel (rest ++ iter_child_nodes n)).
    f_equal. apply IH. now apply queue_size_step.
Qed.

Theorem walk_fuel_suffices tree k :
  walk_loop (node_size tree + k) [tree] = walk tree.
Proof.
  unfold walk. induction k as [|k IH]; [now rewrite Nat.add_0_r|].
  rewrite Nat.add_succ_r, walk_loop_more; [exact IH|].
  unfold queue_size. simpl. lia.
Qed.

(** Whatever waits in the queue is yielded. *)
Lemma walk_loop_queue fuel : forall todo c,
  queue_size todo <= fuel -> In c todo -> In c (walk_loop fuel todo).
Proof.
  induction fuel as [|fuel IH]; intros [|n rest] c Hfuel Hc;
    try contradiction.
  - now apply queue_size_cons_pos in Hfuel.
  - cbn [walk_loop]. destruct Hc as [->|Hc]; [now left|]. right.
    apply IH; [now apply queue_size_step | apply in_app_iff; now left].
Qed.

(** The children of a yielded node are yielded. *)
Lemma walk_loop_children fuel : forall todo m c,
  queue_size todo <= fuel -> In m (walk_loop fuel todo) ->
  In c (iter_child_nodes m) -> In c (walk_loop fuel todo).
Proof.
  induction fuel as [|fuel IH]; intros [|n rest] m c Hfuel Hm Hc;
    try contradiction.
  cbn [walk_loop] in *. right.
  apply queue_size_step in Hfuel. destruct Hm as [->|Hm].
  - apply walk_loop_queue; [exact Hfuel | apply in_app_iff; now right].
  - now apply (IH _ m).
Qed.

(** The walk reaches every node of the tree. *)
Theorem walk_visits_every_node tree n : below tree n -> In n (walk tree).
Proof.
  assert (Hfuel : queue_size [tree] <= node_size tree)
    by (unfold queue_size; simpl; lia).
  unfold walk. induction 1 as [|m c _ IH Hc].
  - apply walk_loop_queue; [exact Hfuel | now left].
  - now apply (walk_loop_children _ m).
Qed.

(** *** Which nodes are checked *)

(** A visit reads nothing of the instance but its path. *)
Lemma visit_path self self' out node :
  path_file self' = path_file self -> visit self' out node = visit self out node.
Proof.
  destruct self as [p c], self' as [p' c']. simpl. intros ->. reflexivity.
Qed.

Lemma fold_left_visit self nodes : forall out,
  fold_left (visit self) nodes out = out ++ flat_map (visit self []) nodes.
Proof.
  induction nodes as [|n nodes IH]; intros out; simpl.
  - now rewrite app_nil_r.
  - rewrite IH, (visit_append self out n). now rewrite <- app_assoc.
Qed.

Lemma visit_other self out node :
  is_ClassDef node = false -> is_FunctionDef node = false ->
  visit self out node = out.
Proof. intros Hc Hf. unfold visit. now rewrite Hc, Hf. Qed.

Lemma flat_map_filter {A B : Type} (f : A -> list B) (P : A -> bool) l :
  (forall x, P x = false -> f x = []) ->
  flat_map f l = flat_map f (filter P l).
Proof.
  intros H. induction l as [|x l IH]; simpl; [reflexivity|].
  destruct (P x) eqn:E; simpl; [now rewrite IH|].
  now rewrite (H _ E), IH.
Qed.

(** The output of [run]: the scan's lines, then the visits' lines in walk
    order. *)
Lemma run_unfold self out lines tree :
  run self out lines tree =
  (fold_left next_line lines self,
   out ++ scan_output self 1 lines ++ flat_map (visit self []) (walk tree)).
Proof.
  unfold run. rewrite LineScanner.scan_lines_unfold, fold_left_visit.
  rewrite <- app_assoc. do 3 f_equal.
  apply flat_map_ext. intros n. apply visit_path, LineScanner.path_file_scan.
Qed.

Lemma variable_reports_code self body d :
  In d (variable_reports self body) -> code d = lit "S011".
Proof.
  unfold variable_reports. rewrite in_flat_map. intros [stmt [_ H]].
  destruct stmt; try contradiction.
  apply in_flat_map in H. destruct H as [t [_ H]].
  destruct t; try contradiction.
  destruct (re_match_dollar variable_name_re id); [contradiction|].
  now destruct H as [<-|[]].
Qed.

(** C10: a visit prints only for a class definition (S008) or a function
    definition (S009, S010, S011, S012).  An async function definition, like
    every other node, passes through unchanged output, so for every file
    the tree part of the output is the visits of its class and function
    definitions alone, in walk order. *)
Theorem only_class_and_function_nodes_are_checked :
  forall self out lines tree,
  (forall name lineno args defaults body others,
     visit self out (AsyncFunctionDef name lineno args defaults body others)
     = out)
  /\ (forall node,
        is_ClassDef node = true \/ is_FunctionDef node = true
        \/ visit self out node = out)
  /\ snd (run self out lines tree)
     = snd (scan_lines (self, out) lines)
       ++ flat_map (visit self [])
            (filter (fun n => (is_ClassDef n || is_FunctionDef n)%bool)
                    (walk tree))
  /\ (forall name lineno bases body decorator_list d,
        In d (visit self [] (ClassDef name lineno bases body decorator_list)) ->
        code d = lit "S008")
  /\ (forall name lineno args defaults body others d,
        In d (visit self []
                (FunctionDef name lineno args defaults body others)) ->
        In (code d) [lit "S009"; lit "S010"; lit "S011"; lit "S012"]).
Proof.
  intros self out lines tree.
  split; [reflexivity|]. split; [|split; [|split]].
  - intros node. destruct (is_ClassDef node) eqn:Hc; [now left|].
    destruct (is_FunctionDef node) eqn:Hf; [now right; left|].
    right. right. now apply visit_other.
  - rewrite run_unfold, LineScanner.scan_lines_unfold. cbn [snd].
    rewrite <- app_assoc. do 2 f_equal.
    apply flat_map_filter. intros n Hn. apply orb_false_iff in Hn.
    destruct Hn as [Hc Hf]. now apply visit_other.
  - intros name lineno bases body decorator_list d. unfold visit. simpl.
    unfold print_error. destruct (re_match class_name_re name);
      [|contradiction].
    now intros [<-|[]].
  - intros name lineno args defaults body others d.
    rewrite visit_function_def. unfold function_reports. cbn [app].
    rewrite !in_app_iff. intros [H|[H|[H|H]]].
    + destruct (re_match function_name_re name); [|contradiction].
      destruct H as [<-|[]]. simpl. auto.
    + apply in_map_iff in H. destruct H as [a [<- _]]. simpl. auto.
    + apply in_map_iff in H. destruct H as [a [<- _]]. simpl. auto.
    + apply variable_reports_code in H. rewrite H. simpl. auto.
Qed.

End TreeInspector.

(* ===================================================================== *)
(** ** The driver: one fresh analyser per file *)
(* ===================================================================== *)

Module Driver.

(** What one analysis of a file prints, on its own. *)
Lemma call_analyzer_error_append out f :
  call_analyzer_error out f = out ++ call_analyzer_error [] f.
Proof.
  unfold call_analyzer_error. now rewrite !TreeInspector.run_unfold.
Qed.

End Driver.

(* ===================================================================== *)
(** ** More on the line checks *)
(* ===================================================================== *)

Module LineRules.
Import LineScanner.

(** *** Counting one code on one line of a scan *)

Lemma count_at_report_raise c i self n cls K M :
  count_at c i (report self n (raise cls K M)) =
  if (str_eqb (lit K) (lit c) && (n =? i))%bool then 1 else 0.
Proof.
  unfold count_at, raise, report, has_code. simpl.
  now destruct (str_eqb (lit K) (lit c) && (n =? i))%bool.
Qed.

(** In a scan, what is printed for line [n] is what the checks print when
    they reach it. *)
Lemma count_at_scan c path before line after :
  count_at c (List.length before + 1)
    (snd (scan_lines (init path, []) (before ++ line :: after))) =
  count_at c (List.length before + 1)
    (line_output (fold_left next_line before (init path))
                 (List.length before + 1) line).
Proof.
  rewrite scan_lines_unfold. cbn [snd app]. rewrite scan_output_app.
  cbn [scan_output]. rewrite !count_at_app.
  replace (1 + List.length before) with (List.length before + 1) by lia.
  rewrite (@count_at_other_lines c _ (scan_output (init path) 1 before)).
  2:{ intros d Hd. apply scan_output_number_line in Hd. lia. }
  rewrite (@count_at_other_lines c _ (scan_output _ (S _) after)).
  2:{ intros d Hd. apply scan_output_number_line in Hd. lia. }
  lia.
Qed.

Ltac count_static_check :=
  match goal with
  | |- count_at _ _ (report _ _ (?f _)) = _ =>
      unfold f;
      match goal with
      | |- context [if ?b then raise _ _ _ else Returned] => now destruct b
      end
  end.

(** *** S001 *)

(** X1: in the scan of a file, a line longer than 79 characters, its
    terminator counted, is reported with S001 exactly once, and a line of at
    most 79 characters is never reported with S001. *)
Theorem long_line_rule : forall path before line after,
  count_at "S001" (List.length before + 1)
    (snd (scan_lines (init path, []) (before ++ line :: after))) =
  if 79 <? List.length line then 1 else 0.
Proof.
  intros path before line after. rewrite count_at_scan.
  set (self := fold_left next_line before (init path)).
  set (n := List.length before + 1).
  unfold line_output. rewrite !count_at_app.
  assert (H2 : count_at "S001" n (report self n (check_indentation line)) = 0)
    by count_static_check.
  assert (H3 : count_at "S001" n (report self n (check_semicolon line)) = 0)
    by count_static_check.
  assert (H4 : count_at "S001" n (report self n (check_spaces line)) = 0)
    by count_static_check.
  assert (H5 : count_at "S001" n (report self n (check_todo_existing line)) = 0)
    by count_static_check.
  assert (H6 : count_at "S001" n
                 (report self n (snd (check_blank_lines self line))) = 0).
  { unfold check_blank_lines. destruct (str_eqb (strip line) []); [reflexivity|].
    now destruct (2 <? count_blank_lines_in_row self). }
  assert (H7 : count_at "S001" n
                 (report self n (check_class_declaration_spaces line)) = 0)
    by count_static_check.
  assert (H8 : count_at "S001" n
                 (report self n (check_function_declaration_spaces line)) = 0)
    by count_static_check.
  rewrite H2, H3, H4, H5, H6, H7, H8. unfold check_long.
  destruct (79 <? List.length line); [|reflexivity].
  rewrite count_at_report_raise, Nat.eqb_refl. reflexivity.
Qed.

(** *** S003 *)

Lemma rstrip_with_app (p : char -> bool) (x t : str) :
  forallb p t = true -> rstrip_with p (x ++ t) = rstrip_with p x.
Proof.
  intros H. unfold rstrip_with. rewrite rev_app_distr.
  rewrite lstrip_with_app; [reflexivity|].
  rewrite forallb_forall in *. intros c Hc. apply H. now apply in_rev.
Qed.

Lemma rstrip_with_stop (p : char -> bool) (x : str) c :
  p c = false -> rstrip_with p (x ++ [c]) = x ++ [c].
Proof.
  intros H. unfold rstrip_with. rewrite rev_app_distr. simpl. rewrite H.
  simpl. now rewrite rev_involutive.
Qed.

Lemma rstrip_with_split (p : char -> bool) (s : str) :
  exists t, s = rstrip_with p s ++ t /\ forallb p t = true.
Proof.
  unfold rstrip_with.
  destruct (lstrip_with_split p (rev s)) as [u [Hs Hu]].
  exists (rev u). split.
  - rewrite <- rev_app_distr, <- Hs. now rewrite rev_involutive.
  - rewrite forallb_forall in *. intros c Hc. apply Hu. now apply in_rev.
Qed.

Lemma forallb_eqc_repeat c (t : str) :
  forallb (eqc c) t = true -> t = repeat c (List.length t).
Proof.
  induction t as [|d t IH]; simpl; [reflexivity|].
  intros H. apply andb_true_iff in H. destruct H as [Hd Ht].
  apply eqc_true in Hd. subst d. now rewrite <- IH.
Qed.

Lemma forallb_eqc_repeat_true c k : forallb (eqc c) (repeat c k) = true.
Proof. induction k; simpl; [reflexivity|]. now rewrite eqc_refl. Qed.

Lemma endswith_one (s : str) c :
  endswith s [c] = true <-> exists q, s = q ++ [c].
Proof.
  unfold endswith. change (rev [c]) with [c].
  rewrite startswith_spec. split.
  - intros [t H]. exists (rev t). apply (f_equal (@rev char)) in H.
    rewrite rev_involutive in H. rewrite H. simpl. reflexivity.
  - intros [q ->]. exists (rev q). now rewrite rev_app_distr.
Qed.

(** The text before the first [#]. *)
Lemma split_head_spec (line : str) :
  ~ In hash (split_head hash line)
  /\ (line = split_head hash line
      \/ exists t, line = split_head hash line ++ hash :: t).
Proof.
  induction line as [|c line [IHn IHl]]; simpl.
  - split; [tauto | now left].
  - destruct (eqc c hash) eqn:E.
    + apply eqc_true in E. subst c. split; [tauto|]. right. now exists line.
    + assert (c <> hash) by (intros ->; now rewrite eqc_refl in E).
      split; [simpl; intuition congruence|].
      destruct IHl as [IHl|[t IHl]].
      * left. now rewrite <- IHl.
      * right. exists t. simpl. now rewrite <- IHl.
Qed.

Lemma split_head_app (h rest : str) :
  ~ In hash h -> (rest = [] \/ exists t, rest = hash :: t) ->
  split_head hash (h ++ rest) = h.
Proof.
  intros Hh Hrest. induction h as [|c h IH]; simpl.
  - destruct Hrest as [->|[t ->]]; reflexivity.
  - destruct (eqc c hash) eqn:E.
    + apply eqc_true in E. subst c. exfalso. apply Hh. now left.
    + f_equal. apply IH. intros H. apply Hh. now right.
Qed.

(** What is left of the code part after the two [rstrip] calls ends in a
    semicolon exactly when the code part is a semicolon followed by spaces
    and then by newlines. *)
Lemma code_part_ends_in_semicolon (h : str) :
  endswith (rstrip_with (eqc space) (rstrip_with (eqc nl) h)) [semicolon] = true
  <-> exists q a b, h = q ++ semicolon :: repeat space a ++ repeat nl b.
Proof.
  rewrite endswith_one. split.
  - intros [q Hq].
    destruct (rstrip_with_split (eqc nl) h) as [t1 [H1 Ht1]].
    destruct (rstrip_with_split (eqc space) (rstrip_with (eqc nl) h))
      as [t2 [H2 Ht2]].
    exists q, (List.length t2), (List.length t1).
    rewrite <- (forallb_eqc_repeat _ _ Ht1), <- (forallb_eqc_repeat _ _ Ht2).
    rewrite H1 at 1. rewrite H2 at 1. rewrite Hq.
    now rewrite <- !app_assoc.
  - intros [q [a [b ->]]]. exists q.
    replace (q ++ semicolon :: repeat space a ++ repeat nl b)
      with ((q ++ semicolon :: repeat space a) ++ repeat nl b)
      by now rewrite <- app_assoc.
    rewrite rstrip_with_app by apply forallb_eqc_repeat_true.
    assert (Hnl : rstrip_with (eqc nl) (q ++ semicolon :: repeat space a)
                  = q ++ semicolon :: repeat space a).
    { destruct a as [|a].
      - simpl. now apply rstrip_with_stop.
      - replace (q ++ semicolon :: repeat space (S a))
          with ((q ++ semicolon :: repeat space a) ++ [space]).
        + now apply rstrip_with_stop.
        + rewrite <- app_assoc. simpl. do 2 f_equal.
          change (space :: repeat space a) with (repeat space (S a)).
          now rewrite <- repeat_cons. }
    rewrite Hnl.
    replace (q ++ semicolon :: repeat space a)
      with ((q ++ [semicolon]) ++ repeat space a)
      by now rewrite <- app_assoc.
    rewrite rstrip_with_app by apply forallb_eqc_repeat_true.
    now apply rstrip_with_stop.
Qed.

(** X2: S003 is raised exactly when, before the first [#] of the line (or
    in the whole line when it has none), the text ends in a semicolon
    followed only by spaces and then only by newlines.  A tab after the
    semicolon, or a semicolon that stands after the first [#], keeps the
    line clear. *)
Theorem semicolon_rule : forall line,
  (check_semicolon line =
     raise UnnecessarySemicolonError "S003" "Unnecessary semicolon"
   <-> exists q a b rest,
         line = q ++ semicolon :: repeat space a ++ repeat nl b ++ rest
         /\ ~ In hash q
         /\ (rest = [] \/ exists t, rest = hash :: t))
  /\ (check_semicolon line = Returned
      <-> ~ exists q a b rest,
            line = q ++ semicolon :: repeat space a ++ repeat nl b ++ rest
            /\ ~ In hash q
            /\ (rest = [] \/ exists t, rest = hash :: t))
  /\ check_semicolon (ln "x = 1;") =
       raise UnnecessarySemicolonError "S003" "Unnecessary semicolon"
  /\ check_semicolon (ln "x = 1  # use ;") = Returned
  /\ check_semicolon (lit "x = 1;" ++ [ch "009"; nl]) = Returned.
Proof.
  intros line.
  assert (Hshape :
    endswith (rstrip_with (eqc space)
                (rstrip_with (eqc nl) (split_head hash line))) [semicolon] = true
    <-> exists q a b rest,
          line = q ++ semicolon :: repeat space a ++ repeat nl b ++ rest
          /\ ~ In hash q
          /\ (rest = [] \/ exists t, rest = hash :: t)).
  { rewrite code_part_ends_in_semicolon.
    destruct (split_head_spec line) as [Hno Hline]. split.
    - intros [q [a [b Hh]]].
      assert (Hq : ~ In hash q).
      { intros Hin. apply Hno. rewrite Hh. apply in_app_iff. now left. }
      destruct Hline as [Hl|[t Hl]].
      + exists q, a, b, []. split; [|split; [exact Hq | now left]].
        rewrite app_nil_r. rewrite Hl at 1. now rewrite Hh.
      + exists q, a, b, (hash :: t). split; [|split; [exact Hq|eauto]].
        rewrite Hl at 1. rewrite Hh. rewrite <- !app_assoc. simpl.
        now rewrite <- !app_assoc.
    - intros [q [a [b [rest [Hl [Hq Hrest]]]]]]. exists q, a, b.
      rewrite Hl.
      replace (q ++ semicolon :: repeat space a ++ repeat nl b ++ rest)
        with ((q ++ semicolon :: repeat space a ++ repeat nl b) ++ rest).
      + apply split_head_app; [|exact Hrest].
        rewrite in_app_iff. simpl. rewrite in_app_iff.
        intros [H|[H|[H|H]]]; [exact (Hq H) | discriminate | |];
          apply repeat_spec in H; discriminate.
      + rewrite <- app_assoc. simpl. now rewrite <- app_assoc. }
  unfold check_semicolon. cbv zeta.
  split; [|split; [|repeat split; reflexivity]].
  - rewrite <- Hshape.
    destruct (endswith _ _); split; intros H; try reflexivity; discriminate.
  - rewrite <- Hshape.
    destruct (endswith _ _); split; intros H; try reflexivity;
      try discriminate; exfalso; now apply H.
Qed.

(** *** S005 *)

Lemma forallb_one_repeat (a : ascii) (u : str) :
  forallb (one a) u = true <-> u = repeat (ch a) (List.length u).
Proof.
  induction u as [|c u IH]; simpl; [tauto|].
  rewrite andb_true_iff, one_true, IH. split.
  - intros [-> <-]. reflexivity.
  - intros [= -> H]. split; [reflexivity | exact H].
Qed.

Lemma matches_word_ignoring_case (l w : str) :
  matches
    (fold_right
       (fun c r => Cat (Chr (fun x => eqc x c || eqc x (c - 32)%N)%bool) r)
       Eps l) w
  <-> Forall2 (fun x c => x = c \/ x = (c - 32)%N) w l.
Proof.
  revert w. induction l as [|c l IH]; intros w; simpl.
  - split.
    + intros H. apply matches_eps_inv in H. subst w. constructor.
    + intros H. inversion H. constructor.
  - split.
    + intros H. apply matches_cat_inv in H. destruct H as [u [v [-> [Hu Hv]]]].
      apply matches_chr_inv in Hu. destruct Hu as [x [-> Hx]].
      apply orb_true_iff in Hx. rewrite !eqc_true in Hx.
      constructor; [exact Hx | now apply IH].
    + intros H. inversion H as [|x c' w' l' Hx Hw]; subst.
      change (x :: w') with ([x] ++ w').
      constructor; [|now apply IH].
      constructor. apply orb_true_iff. now rewrite !eqc_true.
Qed.

(** What [(?i)# *todo] finds in a line. *)
Lemma todo_re_shape line :
  re_search todo_re line = true <->
  exists pre k w post,
    line = pre ++ hash :: repeat space k ++ w ++ post
    /\ same_word_ignoring_case w "todo".
Proof.
  rewrite re_search_spec. unfold todo_re, same_word_ignoring_case. split.
  - intros [pre [u [post [-> H]]]].
    apply matches_cat_inv in H. destruct H as [h [r [-> [Hh H]]]].
    apply matches_cat_inv in H. destruct H as [sp [w [-> [Hsp Hw]]]].
    apply matches_chr_inv in Hh. destruct Hh as [c [-> Hc]].
    apply one_true in Hc. subst c.
    apply matches_star_chr, forallb_one_repeat in Hsp.
    apply matches_word_ignoring_case in Hw.
    exists pre, (List.length sp), w, post. split; [|exact Hw].
    change (ch " ") with space in Hsp.
    rewrite <- Hsp. simpl. now rewrite <- !app_assoc.
  - intros [pre [k [w [post [-> Hw]]]]].
    exists pre, ([hash] ++ repeat space k ++ w), post.
    split; [simpl; now rewrite <- !app_assoc|].
    constructor; [now constructor|]. constructor.
    + apply matches_star_chr, forallb_one_repeat. now rewrite repeat_length.
    + now apply matches_word_ignoring_case.
Qed.

(** X3: S005 is raised exactly when the line holds a [#] followed by any
    number of spaces and then by the word "todo" in any mix of upper and
    lower case.  The word alone, without a [#] before it, is not reported,
    and neither is a word separated from the [#] by a tab. *)
Theorem todo_rule : forall line,
  (check_todo_existing line = raise TODOFoundError "S005" "TODO found"
   <-> exists pre k w post,
         line = pre ++ hash :: repeat space k ++ w ++ post
         /\ same_word_ignoring_case w "todo")
  /\ (check_todo_existing line = Returned
      <-> ~ exists pre k w post,
            line = pre ++ hash :: repeat space k ++ w ++ post
            /\ same_word_ignoring_case w "todo")
  /\ check_todo_existing (ln "x = 1  #   ToDo: later") =
       raise TODOFoundError "S005" "TODO found"
  /\ check_todo_existing (ln "TODO = 1") = Returned
  /\ check_todo_existing (lit "#" ++ [ch "009"] ++ ln "todo") = Returned.
Proof.
  intros line. unfold check_todo_existing.
  split; [|split; [|repeat split; reflexivity]].
  - rewrite <- todo_re_shape.
    destruct (re_search todo_re line); split; intros H;
      try reflexivity; discriminate.
  - rewrite <- todo_re_shape.
    destruct (re_search todo_re line); split; intros H;
      try reflexivity; try discriminate; exfalso; now apply H.
Qed.

(** *** S002 *)

(** X4: on a line that holds something other than whitespace, S002 is
    raised exactly when the number of whitespace characters before the first
    other character is not a multiple of four; every whitespace character
    counts for one, a tab included. *)
Theorem indentation_rule : forall ws c rest,
  forallb isspace ws = true ->
  isspace c = false ->
  check_indentation (ws ++ c :: rest) =
    (if List.length ws mod 4 =? 0 then Returned
     else raise IndentError "S002" "Indentation is not a multiple of four").
Proof.
  intros ws c rest Hws Hc. unfold check_indentation, lstrip.
  rewrite lstrip_with_app by exact Hws.
  cbn [lstrip_with]. rewrite Hc.
  assert (Hne : str_eqb (ws ++ c :: rest) [nl] = false).
  { apply not_true_iff_false. intros E. apply str_eqb_spec in E.
    destruct ws as [|x ws]; simpl in E.
    - injection E as -> _. discriminate.
    - injection E as _ E. now destruct ws. }
  rewrite Hne, length_app. cbn [List.length negb andb].
  replace (List.length ws + S (List.length rest) - S (List.length rest))
    with (List.length ws) by lia.
  now destruct (List.length ws mod 4 =? 0).
Qed.

(** The rule at work: one tab of indentation is reported, four spaces are
    not. *)
Lemma indentation_rule_witness :
  check_indentation ([ch "009"] ++ ch "x" :: ln " = 1") =
    raise IndentError "S002" "Indentation is not a multiple of four"
  /\ check_indentation (lit "    " ++ ch "x" :: ln " = 1") = Returned.
Proof.
  split.
  - apply (@indentation_rule [ch "009"] (ch "x") (ln " = 1")); reflexivity.
  - apply (@indentation_rule (lit "    ") (ch "x") (ln " = 1")); reflexivity.
Defined.

(** *** S004, read from the first [#] *)

(** Two ways of cutting a line at a character, the first cut at the first
    [#]: the second cut is at that [#] too, or it is earlier. *)
Lemma first_hash_cut (p t p' t' : str) c :
  ~ In hash p -> ~ In hash p' ->
  p ++ hash :: t = p' ++ c :: t' ->
  (c = hash /\ p' = p /\ t' = t)
  \/ (exists r, p = p' ++ c :: r /\ t' = r ++ hash :: t).
Proof.
  intros Hp Hp' H. apply app_eq_app in H. destruct H as [l [[Hl Ht]|[Hl Ht]]].
  - destruct l as [|x l]; simpl in Ht.
    + left. injection Ht as Hc Ht. rewrite app_nil_r in Hl. subst. auto.
    + right. injection Ht as Hc Ht. subst. exists l. auto.
  - destruct l as [|x l]; simpl in Ht.
    + left. injection Ht as Hc Ht. rewrite app_nil_r in Hl. subst. auto.
    + injection Ht as Hc _. subst x. exfalso. apply Hp'. rewrite Hl.
      apply in_app_iff. right. now left.
Qed.

Lemma startswith_hash_free (r t : str) :
  ~ In hash r -> startswith (r ++ hash :: t) [hash] = true -> r = [].
Proof.
  intros Hr H. destruct r as [|x r]; [reflexivity|].
  simpl in H. apply andb_true_iff in H. destruct H as [H _].
  apply eqc_true in H. subst x. exfalso. apply Hr. now left.
Qed.

(** X5: take a line whose first [#] stands after the text [p].  S004 is
    raised exactly when [p] ends in a character that is not a space, or in
    such a character and one space, or when that first [#] is itself
    followed by [#] or by a space and [#].  A line without any [#] is never
    reported. *)
Theorem spaces_rule_at_first_hash : forall p t,
  ~ In hash p ->
  check_spaces p = Returned
  /\ (check_spaces (p ++ hash :: t) =
        raise NotEnoughSpacesError "S004"
              "At least two spaces required before inline"
      <-> (exists q c, p = q ++ [c] /\ c <> space)
          \/ (exists q c, p = q ++ [c; space] /\ c <> space)
          \/ startswith t [hash] = true
          \/ startswith t [space; hash] = true).
Proof.
  intros p t Hp.
  assert (Hiff : forall line,
            check_spaces line =
              raise NotEnoughSpacesError "S004"
                    "At least two spaces required before inline"
            <-> re_match spaces_re line = true).
  { intros line. unfold check_spaces.
    destruct (re_match spaces_re line); split; intros H;
      try reflexivity; discriminate. }
  split.
  - unfold check_spaces. destruct (re_match spaces_re p) eqn:E; [|reflexivity].
    apply spaces_re_shape in E.
    destruct E as [p' [c [t' [-> [_ [_ Ht']]]]]]. exfalso. apply Hp.
    apply in_app_iff. right. right.
    destruct Ht' as [Ht'|Ht']; apply startswith_spec in Ht';
      destruct Ht' as [r ->]; simpl; auto.
  - rewrite Hiff, spaces_re_shape. split.
    + intros [p' [c [t' [Hline [Hp' [Hc Ht']]]]]].
      destruct (@first_hash_cut p t p' t' c Hp Hp' Hline)
        as [[-> [-> ->]]|[r [-> ->]]].
      * right. right. exact Ht'.
      * assert (Hr : ~ In hash r).
        { intros Hin. apply Hp. apply in_app_iff. right. now right. }
        destruct Ht' as [Ht'|Ht'].
        -- left. apply startswith_hash_free in Ht'; [|exact Hr]. subst r.
           now exists p', c.
        -- right. left. destruct r as [|x r]; [discriminate|].
           simpl in Ht'. apply andb_true_iff in Ht'. destruct Ht' as [Hx Ht'].
           apply eqc_true in Hx. subst x.
           apply (@startswith_hash_free r t) in Ht'.
           ++ subst r. now exists p', c.
           ++ intros Hin. apply Hr. now right.
    + intros [[q [c [-> Hc]]]|[[q [c [-> Hc]]]|[Ht|Ht]]].
      * exists q, c, (hash :: t). rewrite <- app_assoc.
        split; [reflexivity|]. split; [|split; [exact Hc | now left]].
        intros Hin. apply Hp. apply in_app_iff. now left.
      * exists q, c, (space :: hash :: t). rewrite <- app_assoc.
        split; [reflexivity|]. split; [|split; [exact Hc | now right]].
        intros Hin. apply Hp. apply in_app_iff. now left.
      * exists p, hash, t. split; [reflexivity|].
        split; [exact Hp|]. split; [discriminate | now left].
      * exists p, hash, t. split; [reflexivity|].
        split; [exact Hp|]. split; [discriminate | now right].
Qed.

(** The rule at work: a line without [#] passes; a comment set off by two
    spaces but opened by [##] does not. *)
Lemma spaces_rule_at_first_hash_witness :
  check_spaces (ln "x = 1") = Returned
  /\ check_spaces (lit "x = 1  " ++ hash :: ln "# note") =
       raise NotEnoughSpacesError "S004"
             "At least two spaces required before inline".
Proof.
  split.
  - refine (proj1 (@spaces_rule_at_first_hash (ln "x = 1") [] _)).
    vm_compute. intuition discriminate.
  - refine (proj2 (proj2 (@spaces_rule_at_first_hash
                            (lit "x = 1  ") (ln "# note") _)) _).
    + vm_compute. intuition discriminate.
    + right. right. left. reflexivity.
Defined.

(** *** What one line can be reported for *)

Lemma subseq_nil_r (l : list str) : subseq l [] = true -> l = [].
Proof. destruct l; [reflexivity | discriminate]. Qed.

Lemma subseq_incl (l2 : list str) : forall l1 x,
  subseq l1 l2 = true -> In x l1 -> In x l2.
Proof.
  induction l2 as [|y l2 IH]; intros l1 x H Hx.
  - apply subseq_nil_r in H. now subst l1.
  - destruct l1 as [|z l1]; [contradiction|]. simpl in H.
    destruct (str_eqb z y) eqn:E.
    + apply str_eqb_spec in E. subst z. destruct Hx as [->|Hx]; [now left|].
      right. eapply IH; eassumption.
    + right. eapply IH; eassumption.
Qed.

Lemma subseq_NoDup (l2 : list str) : forall l1,
  NoDup l2 -> subseq l1 l2 = true -> NoDup l1.
Proof.
  induction l2 as [|y l2 IH]; intros l1 Hnd H.
  - apply subseq_nil_r in H. subst l1. constructor.
  - inversion Hnd as [|? ? Hy Hnd']; subst.
    destruct l1 as [|z l1]; [constructor|]. simpl in H.
    destruct (str_eqb z y) eqn:E.
    + apply str_eqb_spec in E. subst z. constructor; [|now apply IH].
      intros Hin. apply Hy. eapply subseq_incl; eassumption.
    + now apply IH.
Qed.

Lemma subseq_length (l2 : list str) : forall l1,
  subseq l1 l2 = true -> List.length l1 <= List.length l2.
Proof.
  induction l2 as [|y l2 IH]; intros l1 H.
  - apply subseq_nil_r in H. now subst l1.
  - destruct l1 as [|z l1]; [simpl; lia|]. simpl in H.
    destruct (str_eqb z y).
    + apply IH in H. simpl. lia.
    + apply IH in H. simpl in *. lia.
Qed.

Lemma line_codes_NoDup : NoDup line_codes.
Proof.
  unfold line_codes. vm_compute.
  repeat (constructor; [simpl; intuition discriminate|]). constructor.
Qed.

(** A line that starts with [class] does not start, after whitespace, with
    [def]: the two S007 checks never raise together. *)
Lemma class_and_def_exclude line :
  re_match class_spaces_re line = true -> re_match def_spaces_re line = false.
Proof.
  rewrite class_spaces_re_shape, def_spaces_re_shape, startswith_spec.
  intros [t ->]. reflexivity.
Qed.

Lemma line_output_codes self n line :
  subseq (map code (line_output self n line)) line_codes = true.
Proof.
  pose proof (@class_and_def_exclude line) as Hex.
  unfold line_output, check_long, check_indentation, check_semicolon,
    check_spaces, check_todo_existing, check_blank_lines,
    check_class_declaration_spaces, check_function_declaration_spaces.
  cbv zeta.
  destruct (re_match class_spaces_re line);
    destruct (re_match def_spaces_re line);
    [specialize (Hex eq_refl); discriminate | | |];
    destruct (79 <? List.length line);
    destruct (negb (str_eqb line [nl])
              && negb ((List.length line - List.length (lstrip line)) mod 4 =? 0))%bool;
    destruct (endswith _ [semicolon]);
    destruct (re_match spaces_re line);
    destruct (re_search todo_re line);
    destruct (str_eqb (strip line) []);
    try destruct (2 <? count_blank_lines_in_row self);
    reflexivity.
Qed.

(** X6: whatever the line and the state of the analyser, the lines printed
    for one input line carry codes taken in order from S001, ..., S007, each
    at most once: no line is reported twice under one code (the checks
    behind S007 never raise together), so at most seven lines are printed
    for it.  Seven are printed for a line that breaks every rule. *)
Theorem one_line_reports : forall self out n line,
  let printed := line_output self n line in
  snd (check_errors (self, out) n line) = out ++ printed
  /\ subseq (map code printed) line_codes = true
  /\ NoDup (map code printed)
  /\ List.length printed <= 7
  /\ (check_class_declaration_spaces line = Returned
      \/ check_function_declaration_spaces line = Returned)
  /\ map code
       (snd (check_errors
               ({| path_file := path_file self; count_blank_lines_in_row := 3 |},
                []) n
               (ln " def  f(): return 1;# todo ------------------------------------------------------")))
     = line_codes.
Proof.
  intros self out n line printed.
  pose proof (line_output_codes self n line) as Hsub. fold printed in Hsub.
  split; [now rewrite check_errors_unfold|].
  split; [exact Hsub|].
  split; [exact (@subseq_NoDup _ _ line_codes_NoDup Hsub)|].
  split.
  { rewrite <- (length_map code). apply (@subseq_length _ _ Hsub). }
  split; [|reflexivity].
  unfold check_class_declaration_spaces, check_function_declaration_spaces.
  pose proof (@class_and_def_exclude line) as Hex.
  destruct (re_match class_spaces_re line); [|now left].
  right. now rewrite Hex.
Qed.

(** X7: of the eight checks only the blank-line check looks at the state of
    the analyser: everything printed for a line under a code other than S006
    is the same whatever the counter holds, so it depends on the text of
    that line alone. *)
Theorem only_S006_depends_on_earlier_lines : forall path count count' out n line,
  let not_S006 := fun d => negb (has_code "S006" d) in
  filter not_S006
    (snd (check_errors (Analyzer path count, []) n line))
  = filter not_S006
      (snd (check_errors (Analyzer path count', []) n line))
  /\ path_file (fst (check_errors (Analyzer path count, out) n line)) = path.
Proof.
  intros path count count' out n line not_S006.
  rewrite !check_errors_unfold. cbn [fst snd app].
  split; [|apply path_file_next_line].
  unfold line_output. rewrite !filter_app. do 5 f_equal.
  f_equal.
  unfold check_blank_lines. cbn [count_blank_lines_in_row path_file].
  destruct (str_eqb (strip line) []); [reflexivity|].
  destruct (2 <? count), (2 <? count'); reflexivity.
Qed.

(** *** The output of a scan *)

Lemma sorted_app (l1 l2 : list nat) :
  StronglySorted le l1 -> StronglySorted le l2 ->
  (forall x y, In x l1 -> In y l2 -> x <= y) ->
  StronglySorted le (l1 ++ l2).
Proof.
  intros H1 H2 H. induction H1 as [|x l1 Hl1 IH Hx]; simpl; [exact H2|].
  constructor.
  - apply IH. intros a b Ha Hb. apply H; [now right | exact Hb].
  - apply Forall_app. split; [exact Hx|].
    apply Forall_forall. intros y Hy. apply H; [now left | exact Hy].
Qed.

Lemma sorted_constant (l : list nat) k :
  (forall x, In x l -> x = k) -> StronglySorted le l.
Proof.
  induction l as [|x l IH]; intros H; constructor.
  - apply IH. intros y Hy. apply H. now right.
  - apply Forall_forall. intros y Hy.
    rewrite (H x) by now left. rewrite (H y) by now right. lia.
Qed.

Lemma report_file self n o d : In d (report self n o) -> file d = path_file self.
Proof. destruct o; simpl; [tauto|]. now intros [<-|[]]. Qed.

Lemma line_output_file self n line d :
  In d (line_output self n line) -> file d = path_file self.
Proof.
  unfold line_output. rewrite !in_app_iff.
  intros H. repeat destruct H as [H|H]; eauto using report_file.
Qed.

Lemma line_output_code self n line d :
  In d (line_output self n line) -> In (code d) line_codes.
Proof.
  intros H. apply (@subseq_incl line_codes (map code (line_output self n line))).
  - apply line_output_codes.
  - now apply in_map.
Qed.

Lemma scan_output_sorted lines : forall self k,
  StronglySorted le (map number_line (scan_output self k lines)).
Proof.
  induction lines as [|line rest IH]; intros self k; simpl; [constructor|].
  rewrite map_app. apply sorted_app.
  - apply (@sorted_constant _ k). intros x Hx. apply in_map_iff in Hx.
    destruct Hx as [d [<- Hd]]. now apply line_output_number_line in Hd.
  - apply IH.
  - intros x y Hx Hy. apply in_map_iff in Hx, Hy.
    destruct Hx as [d [<- Hd]], Hy as [e [<- He]].
    apply line_output_number_line in Hd.
    apply scan_output_number_line in He. lia.
Qed.

Lemma scan_output_file lines : forall self k d,
  In d (scan_output self k lines) ->
  file d = path_file self /\ In (code d) line_codes.
Proof.
  induction lines as [|line rest IH]; intros self k d; simpl; [tauto|].
  rewrite in_app_iff. intros [H|H].
  - split; [eapply line_output_file | eapply line_output_code]; eassumption.
  - apply IH in H. now rewrite path_file_next_line in H.
Qed.

(** X8: the scan of a file prints its lines in the order of the lines of the
    file: line numbers never go down along the output.  Every line printed
    names the file of the analyser, a line number between 1 and the number
    of lines of the file, and one of the codes S001 to S007. *)
Theorem scan_reports_in_line_order : forall path lines,
  let out := snd (scan_lines (init path, []) lines) in
  StronglySorted le (map number_line out)
  /\ Forall (fun d =>
               1 <= number_line d <= List.length lines
               /\ file d = path
               /\ In (code d) line_codes) out.
Proof.
  intros path lines out. unfold out. rewrite scan_lines_unfold. cbn [snd app].
  split; [apply scan_output_sorted|].
  apply Forall_forall. intros d Hd.
  pose proof (scan_output_number_line _ _ _ _ Hd) as Hn.
  apply scan_output_file in Hd. destruct Hd as [Hf Hc].
  split; [lia|]. now split.
Qed.

(** X9: what is printed for the first lines of a file does not depend on
    the lines that follow: the scan of a longer file starts with the scan
    of the shorter one, and everything after it is about later lines. *)
Theorem scan_is_incremental : forall path first more_lines,
  exists more,
    snd (scan_lines (init path, []) (first ++ more_lines))
    = snd (scan_lines (init path, []) first) ++ more
    /\ Forall (fun d => List.length first < number_line d) more.
Proof.
  intros path first more_lines. rewrite !scan_lines_unfold. cbn [snd app].
  rewrite scan_output_app. eexists. split; [reflexivity|].
  apply Forall_forall. intros d Hd.
  apply scan_output_number_line in Hd. lia.
Qed.

(** *** S006, read backwards *)

(** The counter counts the blank lines at the end of what has been read. *)
Lemma counter_counts_trailing_blanks path lines :
  exists pre run,
    lines = pre ++ run /\ Forall blank run
    /\ count_blank_lines_in_row (fold_left next_line lines (init path))
       = List.length run.
Proof.
  induction lines as [|x l [pre [run [Hl [Hrun Hc]]]]] using rev_ind.
  - exists [], []. repeat split. constructor.
  - rewrite fold_left_app. cbn [fold_left].
    destruct (str_eqb (strip x) []) eqn:E.
    + apply blank_dec in E. exists pre, (run ++ [x]).
      split; [now rewrite Hl, app_assoc|]. split.
      * apply Forall_app. split; [exact Hrun | now constructor].
      * rewrite count_next_line_blank by exact E.
        rewrite Hc, length_app. reflexivity.
    + exists (l ++ [x]), []. split; [now rewrite app_nil_r|].
      split; [constructor|]. apply count_next_line_code.
      intros Hb. apply blank_dec in Hb. congruence.
Qed.

Lemma last_three {A : Type} (l : list A) :
  3 <= List.length l -> exists r a b c, l = r ++ [a; b; c].
Proof.
  intros H. rewrite <- (rev_involutive l) in *.
  rewrite length_rev in H.
  destruct (rev l) as [|c [|b [|a r]]]; simpl in H; try lia.
  exists (rev r), a, b, c. simpl. now rewrite <- !app_assoc.
Qed.

(** X10: if the scan of a file prints S006 for a line, that line is not
    blank and the three lines before it are: S006 is never printed for one
    of the first three lines of a file, nor for a blank line. *)
Theorem S006_needs_three_blank_lines : forall path before line after,
  count_at "S006" (List.length before + 1)
    (snd (scan_lines (init path, []) (before ++ line :: after))) <> 0 ->
  ~ blank line
  /\ 3 <= List.length before
  /\ exists pre b1 b2 b3,
       before = pre ++ [b1; b2; b3] /\ blank b1 /\ blank b2 /\ blank b3.
Proof.
  intros path before line after H.
  rewrite count_at_scan, count_S006_line_output, count_S006_blank_lines in H.
  destruct (str_eqb (strip line) []) eqn:E; [contradiction|].
  destruct (2 <? _) eqn:Hc; [|contradiction]. apply Nat.ltb_lt in Hc.
  destruct (counter_counts_trailing_blanks path before)
    as [pre [run [Hb [Hrun Hlen]]]].
  rewrite Hlen in Hc.
  destruct (@last_three _ run Hc) as [r [b1 [b2 [b3 Hr]]]]. subst run.
  apply Forall_app in Hrun. destruct Hrun as [_ Hrun].
  inversion Hrun as [|? ? H1 Hrun1]; subst.
  inversion Hrun1 as [|? ? H2 Hrun2]; subst.
  inversion Hrun2 as [|? ? H3 _]; subst.
  split; [intros Hbl; apply blank_dec in Hbl; congruence|].
  split.
  - rewrite !length_app. simpl. lia.
  - exists (pre ++ r), b1, b2, b3. rewrite <- app_assoc. auto.
Qed.

(** The rule at work on a file of five lines with three blank ones in the
    middle. *)
Lemma S006_needs_three_blank_lines_witness :
  ~ blank (ln "y = 2")
  /\ 3 <= List.length [ln "x = 1"; ln ""; ln ""; ln ""]
  /\ exists pre b1 b2 b3,
       [ln "x = 1"; ln ""; ln ""; ln ""] = pre ++ [b1; b2; b3]
       /\ blank b1 /\ blank b2 /\ blank b3.
Proof.
  apply (@S006_needs_three_blank_lines (lit "a.py")
           [ln "x = 1"; ln ""; ln ""; ln ""] (ln "y = 2") []).
  vm_compute. discriminate.
Defined.

End LineRules.

(* ===================================================================== *)
(** ** More on the tree checks and on [run] *)
(* ===================================================================== *)

Module TreeRules.
Import TreeInspector.

(** *** S008 *)

(** What [[^A-Z].*] finds at the start of a name. *)
Lemma class_name_re_shape name :
  re_match class_name_re name = bad_class_name name.
Proof.
  destruct name as [|c rest]; [reflexivity|].
  apply eq_true_iff_eq. rewrite re_match_spec.
  unfold class_name_re, bad_class_name. split.
  - intros [u [v [Huv H]]].
    apply matches_cat_inv in H. destruct H as [w1 [w2 [-> [H1 _]]]].
    apply matches_chr_inv in H1. destruct H1 as [d [-> Hd]].
    injection Huv as ->. exact Hd.
  - intros Hc. exists ([c] ++ []), rest. split; [reflexivity|].
    apply M_cat; [now constructor | apply M_star_nil].
Qed.

(** X11: a class is reported with S008, on the line of its definition,
    exactly when its name starts with a character outside [A-Z].  So
    [foo] is reported and [Foo] is not, and a name with a leading
    underscore such as [_Foo] is reported as well. *)
Theorem class_name_rule :
  forall self out name lineno bases body decorator_list,
  check_class_name self out (ClassDef name lineno bases body decorator_list) =
    (if bad_class_name name then
       out ++ [Diagnostic (path_file self) lineno (lit "S008")
                 (lit "Class name '" ++ name ++ lit "' should use CamelCase")]
     else out)
  /\ bad_class_name (lit "foo") = true
  /\ bad_class_name (lit "Foo") = false
  /\ bad_class_name (lit "_Foo") = true.
Proof.
  intros self out name lineno bases body decorator_list.
  split; [|repeat split; reflexivity].
  cbn [check_class_name]. now rewrite class_name_re_shape.
Qed.

(** *** What the walk yields *)

Lemma walk_loop_length fuel : forall todo,
  queue_size todo <= fuel -> List.length (walk_loop fuel todo) = queue_size todo.
Proof.
  induction fuel as [|fuel IH]; intros [|n rest] H; try reflexivity.
  - now apply queue_size_cons_pos in H.
  - cbn [walk_loop List.length]. rewrite IH by now apply queue_size_step.
    rewrite queue_size_app. unfold queue_size. simpl.
    rewrite node_size_children. unfold queue_size. lia.
Qed.

Lemma below_trans t n c : below t n -> below n c -> below t c.
Proof.
  intros Htn Hnc. induction Hnc as [|m c' _ IH Hc]; [exact Htn|].
  exact (@below_child t m c' IH Hc).
Qed.

Lemma walk_loop_below fuel : forall todo n,
  In n (walk_loop fuel todo) -> exists t, In t todo /\ below t n.
Proof.
  induction fuel as [|fuel IH]; intros [|x rest] n Hn; try contradiction.
  cbn [walk_loop] in Hn. destruct Hn as [<-|Hn].
  - exists x. split; [now left | constructor].
  - apply IH in Hn. destruct Hn as [t [Ht Hb]].
    apply in_app_iff in Ht. destruct Ht as [Ht|Ht].
    + exists t. split; [now right | exact Hb].
    + exists x. split; [now left|]. apply (@below_trans x t n); [|exact Hb].
      exact (@below_child x x t (below_self x) Ht).
Qed.

(** X12: the loop of [run] over [ast.walk(tree)] meets the root first, then
    every node of the tree and nothing else, in as many turns as the tree
    has nodes; giving the walk more turns would not yield more. *)
Theorem walk_yields_each_node : forall tree,
  (exists rest, walk tree = tree :: rest)
  /\ List.length (walk tree) = node_size tree
  /\ (forall n, In n (walk tree) <-> below tree n)
  /\ (forall k, walk_loop (node_size tree + k) [tree] = walk tree).
Proof.
  intros tree.
  assert (Hfuel : queue_size [tree] <= node_size tree)
    by (unfold queue_size; simpl; lia).
  split; [|split; [|split]].
  - unfold walk. rewrite node_size_children. cbn [walk_loop]. eauto.
  - unfold walk. rewrite walk_loop_length by exact Hfuel.
    unfold queue_size. simpl. lia.
  - intros n. split; [|apply walk_visits_every_node].
    intros H. apply walk_loop_below in H. destruct H as [t [[<-|[]] Hb]].
    exact Hb.
  - intros k. apply walk_fuel_suffices.
Qed.

(** *** The output of [run] *)

Lemma variable_reports_file self body d :
  In d (variable_reports self body) -> file d = path_file self.
Proof.
  unfold variable_reports. rewrite in_flat_map. intros [stmt [_ H]].
  destruct stmt; try contradiction.
  apply in_flat_map in H. destruct H as [t [_ H]].
  destruct t; try contradiction.
  destruct (re_match_dollar variable_name_re id); [contradiction|].
  now destruct H as [<-|[]].
Qed.

Lemma visit_prints self node d :
  In d (visit self [] node) ->
  In (code d) tree_codes /\ file d = path_file self.
Proof.
  destruct node; try contradiction.
  - unfold visit. simpl. unfold print_error.
    destruct (re_match class_name_re name); [|contradiction].
    intros [<-|[]]. split; [now left | reflexivity].
  - rewrite visit_function_def. unfold function_reports. cbn [app].
    rewrite !in_app_iff. intros [H|[H|[H|H]]].
    + destruct (re_match function_name_re name); [|contradiction].
      destruct H as [<-|[]]. split; [simpl; auto | reflexivity].
    + apply in_map_iff in H. destruct H as [a [<- _]].
      split; [simpl; auto | reflexivity].
    + apply in_map_iff in H. destruct H as [a [<- _]].
      split; [simpl; auto 6 | reflexivity].
    + split; [|now apply (@variable_reports_file self body)].
      apply variable_reports_code in H. rewrite H. simpl. auto 6.
Qed.

(** X13: [run] prints what the scan of the lines prints and, after all of
    it, what the visits of the tree print.  The first part carries only
    codes S001 to S007 and line numbers of the file, the second only codes
    S008 to S012, and every line printed names the path of the analyser. *)
Theorem run_prints_lines_then_tree : forall self out lines tree,
  exists from_lines from_tree,
    snd (run self out lines tree) = out ++ from_lines ++ from_tree
    /\ from_lines = snd (scan_lines (self, []) lines)
    /\ Forall (fun d =>
                 In (code d) line_codes /\ file d = path_file self
                 /\ 1 <= number_line d <= List.length lines) from_lines
    /\ Forall (fun d => In (code d) tree_codes /\ file d = path_file self)
              from_tree.
Proof.
  intros self out lines tree. rewrite run_unfold. cbn [snd].
  exists (scan_output self 1 lines), (flat_map (visit self []) (walk tree)).
  split; [reflexivity|]. split; [now rewrite LineScanner.scan_lines_unfold|].
  split; apply Forall_forall; intros d Hd.
  - pose proof (LineScanner.scan_output_number_line _ _ _ _ Hd) as Hn.
    apply LineRules.scan_output_file in Hd. destruct Hd as [Hf Hc].
    split; [exact Hc|]. split; [exact Hf | lia].
  - apply in_flat_map in Hd. destruct Hd as [n [_ Hd]].
    now apply visit_prints in Hd.
Qed.

(** X14: nothing under the tree escapes the checks: whatever the visit of a
    node prints, however deep the node lies (a method of a class nested in
    a function, say), is printed by [run]. *)
Theorem every_definition_is_visited : forall self lines tree node d,
  below tree node ->
  In d (visit self [] node) ->
  In d (snd (run self [] lines tree)).
Proof.
  intros self lines tree node d Hb Hd. rewrite run_unfold. cbn [snd app].
  apply in_app_iff. right. apply in_flat_map. exists node.
  split; [now apply walk_visits_every_node | exact Hd].
Qed.

(** The rule at work: a badly named method of a class defined inside a
    function is reported. *)
Lemma every_definition_is_visited_witness :
  let method := FunctionDef (lit "Go") 3 [] [] [] [] in
  let tree :=
    Other [FunctionDef (lit "outer") 1 [] []
             [ClassDef (lit "Inner") 2 [] [method] []] []] in
  In (Diagnostic (lit "a.py") 3 (lit "S009")
        (lit "Function name 'Go' should use snake_case"))
     (snd (run (init (lit "a.py")) [] [] tree)).
Proof.
  intros method tree.
  apply (@every_definition_is_visited (init (lit "a.py")) [] tree method).
  - set (inner := ClassDef (lit "Inner") 2 [] [method] []).
    set (outer := FunctionDef (lit "outer") 1 [] [] [inner] []).
    assert (H1 : below tree outer).
    { apply (@below_child tree tree outer); [apply below_self | now left]. }
    assert (H2 : below tree inner).
    { apply (@below_child tree outer inner); [exact H1 | now left]. }
    apply (@below_child tree inner method); [exact H2 | now left].
  - simpl. now left.
Defined.

(** *** The order of the walk *)

Lemma walk_loop_enough f1 : forall f2 todo,
  queue_size todo <= f1 -> queue_size todo <= f2 ->
  walk_loop f1 todo = walk_loop f2 todo.
Proof.
  induction f1 as [|f1 IH]; intros [|f2] [|n rest] H1 H2; try reflexivity;
    try (now apply queue_size_cons_pos in H1);
    try (now apply queue_size_cons_pos in H2).
  cbn [walk_loop]. f_equal. apply IH; now apply queue_size_step.
Qed.

Lemma queue_size_children q :
  queue_size q = List.length q + queue_size (flat_map iter_child_nodes q).
Proof.
  induction q as [|x q IH]; [reflexivity|].
  cbn [flat_map List.length]. rewrite queue_size_app.
  change (queue_size (x :: q)) with (node_size x + queue_size q).
  rewrite node_size_children, IH. lia.
Qed.

(** The queue discipline: the nodes waiting in the queue are yielded
    before any of their children. *)
Lemma walk_loop_front a : forall b fuel,
  queue_size (a ++ b) <= fuel ->
  walk_loop fuel (a ++ b) =
  a ++ walk_loop (fuel - List.length a) (b ++ flat_map iter_child_nodes a).
Proof.
  induction a as [|x a IH]; intros b fuel H.
  - simpl. now rewrite Nat.sub_0_r, app_nil_r.
  - destruct fuel as [|fuel]; [now apply queue_size_cons_pos in H|].
    cbn [app walk_loop flat_map List.length]. f_equal.
    rewrite <- app_assoc, IH.
    + now rewrite <- app_assoc.
    + rewrite app_assoc. now apply queue_size_step.
Qed.

Lemma levels_nil n : levels n [] = [].
Proof. induction n as [|n IH]; [reflexivity|]. simpl. exact IH. Qed.

Lemma walk_loop_levels fuel : forall q,
  queue_size q <= fuel -> walk_loop fuel q = levels fuel q.
Proof.
  induction fuel as [|fuel IH]; intros q H.
  - destruct q; [reflexivity | now apply queue_size_cons_pos in H].
  - destruct q as [|x q]; [now rewrite levels_nil|].
    pose proof (queue_size_children (x :: q)) as Hq.
    cbn [List.length] in Hq.
    rewrite <- (app_nil_r (x :: q)) at 1.
    rewrite walk_loop_front by now rewrite app_nil_r.
    cbn [levels app]. f_equal. f_equal.
    rewrite <- IH by lia. apply walk_loop_enough; cbn [List.length]; lia.
Qed.

(** X18: the loop of [run] goes through the tree level by level: the root,
    then its children from left to right, then their children, and so on.
    So a definition is always checked before the definitions nested in it,
    and the tree part of the output need not follow the line numbers: a
    class at the end of a file is reported before a method of an earlier
    class. *)
Theorem run_visits_level_by_level : forall self lines tree,
  walk tree = levels (node_size tree) [tree]
  /\ snd (run self [] lines tree)
     = snd (scan_lines (self, []) lines)
       ++ flat_map (visit self []) (levels (node_size tree) [tree])
  /\ map number_line
       (snd (run self [] []
               (Other [ClassDef (lit "First") 1 []
                         [FunctionDef (lit "Method") 2 [] [] [] []] [];
                       ClassDef (lit "second") 9 [] [] []])))
     = [9; 2].
Proof.
  intros self lines tree.
  assert (Hw : walk tree = levels (node_size tree) [tree]).
  { unfold walk. apply walk_loop_levels. unfold queue_size. simpl. lia. }
  split; [exact Hw|]. split; [|reflexivity].
  rewrite run_unfold, LineScanner.scan_lines_unfold. cbn [snd app].
  now rewrite Hw.
Qed.

End TreeRules.

(* ===================================================================== *)
(** ** The program *)
(* ===================================================================== *)

Module Program.

(** *** The order of names *)

Lemma str_leb_refl (a : str) : str_leb a a = true.
Proof.
  induction a as [|x a IH]; simpl; [reflexivity|].
  now rewrite N.ltb_irrefl.
Qed.

Lemma str_leb_total (a : str) : forall b,
  str_leb a b = false -> str_leb b a = true.
Proof.
  induction a as [|x a IH]; intros [|y b]; simpl; try discriminate;
    try reflexivity.
  destruct (N.ltb x y) eqn:Exy; [discriminate|].
  destruct (N.ltb y x) eqn:Eyx; [reflexivity|]. apply IH.
Qed.

Lemma str_leb_trans (a : str) : forall b c,
  str_leb a b = true -> str_leb b c = true -> str_leb a c = true.
Proof.
  induction a as [|x a IH]; intros [|y b] [|z c]; simpl; try discriminate;
    try reflexivity.
  destruct (N.ltb x y) eqn:Exy, (N.ltb y x) eqn:Eyx,
           (N.ltb y z) eqn:Eyz, (N.ltb z y) eqn:Ezy,
           (N.ltb x z) eqn:Exz, (N.ltb z x) eqn:Ezx;
    try discriminate; try reflexivity;
    rewrite ?N.ltb_lt, ?N.ltb_ge in *; try lia.
  apply IH.
Qed.

Lemma str_leb_antisym (a : str) : forall b,
  str_leb a b = true -> str_leb b a = true -> a = b.
Proof.
  induction a as [|x a IH]; intros [|y b]; simpl; try discriminate;
    try reflexivity.
  destruct (N.ltb x y) eqn:Exy, (N.ltb y x) eqn:Eyx; try discriminate;
    rewrite ?N.ltb_lt, ?N.ltb_ge in *; try lia.
  intros H1 H2. assert (x = y) by lia. subst y. f_equal. now apply IH.
Qed.

(** *** [sorted] *)

Lemma insert_sorted_perm x l : Permutation (insert_sorted x l) (x :: l).
Proof.
  induction l as [|y l IH]; simpl; [reflexivity|].
  destruct (str_leb x y); [reflexivity|].
  rewrite IH. apply perm_swap.
Qed.

Lemma insert_sorted_sorted x l :
  StronglySorted str_le l -> StronglySorted str_le (insert_sorted x l).
Proof.
  induction 1 as [|y l Hl IH Hy]; simpl.
  - constructor; constructor.
  - destruct (str_leb x y) eqn:E.
    + constructor; [now constructor|]. constructor; [exact E|].
      eapply Forall_impl; [|exact Hy]. intros z Hz.
      exact (str_leb_trans _ _ _ E Hz).
    + constructor; [exact IH|].
      apply (Permutation_Forall (Permutation_sym (insert_sorted_perm x l))).
      constructor; [now apply str_leb_total | exact Hy].
Qed.

Lemma sorted_perm l : Permutation (sorted l) l.
Proof.
  induction l as [|x l IH]; simpl; [reflexivity|].
  rewrite insert_sorted_perm. now constructor.
Qed.

Lemma sorted_sorted l : StronglySorted str_le (sorted l).
Proof.
  induction l as [|x l IH]; simpl; [constructor|].
  now apply insert_sorted_sorted.
Qed.

(** Two ascending arrangements of the same names are the same list. *)
Lemma ascending_unique (l1 : list str) : forall l2,
  StronglySorted str_le l1 -> StronglySorted str_le l2 ->
  Permutation l1 l2 -> l1 = l2.
Proof.
  induction l1 as [|x l1 IH]; intros l2 H1 H2 Hp.
  - apply Permutation_nil in Hp. now subst.
  - destruct l2 as [|y l2].
    + apply Permutation_sym, Permutation_nil in Hp. discriminate.
    + inversion H1 as [|? ? H1' Hx]; subst.
      inversion H2 as [|? ? H2' Hy]; subst.
      assert (Hxy : x = y).
      { assert (Hin1 : In x (y :: l2))
          by (eapply Permutation_in; [exact Hp | now left]).
        assert (Hin2 : In y (x :: l1))
          by (eapply Permutation_in; [apply Permutation_sym; exact Hp | now left]).
        destruct Hin1 as [->|Hin1]; [reflexivity|].
        destruct Hin2 as [->|Hin2]; [reflexivity|].
        rewrite Forall_forall in Hx, Hy.
        apply str_leb_antisym; [now apply Hx | now apply Hy]. }
      subst y. f_equal. apply IH; try assumption.
      now apply Permutation_cons_inv in Hp.
Qed.

Lemma filter_sorted (P : str -> bool) l :
  StronglySorted str_le l -> StronglySorted str_le (filter P l).
Proof.
  induction 1 as [|x l Hl IH Hx]; simpl; [constructor|].
  destruct (P x); [|exact IH]. constructor; [exact IH|].
  apply Forall_forall. intros y Hy. apply filter_In in Hy.
  rewrite Forall_forall in Hx. now apply Hx.
Qed.

Lemma filter_perm (P : str -> bool) l1 l2 :
  Permutation l1 l2 -> Permutation (filter P l1) (filter P l2).
Proof.
  induction 1 as [|x l1 l2 _ IH|x y l|l1 l2 l3 _ IH1 _ IH2]; simpl.
  - constructor.
  - destruct (P x); [now constructor | exact IH].
  - destruct (P x), (P y); try reflexivity. apply perm_swap.
  - now transitivity (filter P l2).
Qed.

(** *** Loops that may stop *)

Lemma for_each_app {A : Type} (body : stdout -> A -> stdout * bool) l1 :
  forall l2 out,
  for_each body (l1 ++ l2) out =
  (if snd (for_each body l1 out)
   then for_each body l2 (fst (for_each body l1 out))
   else for_each body l1 out).
Proof.
  induction l1 as [|x l1 IH]; intros l2 out; simpl; [reflexivity|].
  destruct (body out x) as [out' [|]]; [apply IH | reflexivity].
Qed.

(** The loop over the names of one directory is the loop over its
    targets. *)
Lemma for_each_names fs root names : forall out,
  for_each
    (fun out file_name =>
       if Bool.eqb (endswith file_name (lit ".py")) false then (out, true)
       else call_analyzer_error_at fs out (join root file_name))
    names out =
  for_each (call_analyzer_error_at fs)
    (map (join root) (filter (fun name => endswith name (lit ".py")) names))
    out.
Proof.
  induction names as [|name names IH]; intros out; [reflexivity|].
  cbn [for_each filter].
  destruct (endswith name (lit ".py")); cbn [Bool.eqb map for_each].
  - destruct (call_analyzer_error_at fs out (join root name)) as [out' [|]];
      [apply IH | reflexivity].
  - apply IH.
Qed.

(** The two nested loops of a directory run are one loop over the
    targets. *)
Lemma main_directory fs walked input_path :
  main fs true walked input_path =
  for_each (call_analyzer_error_at fs) (targets walked) [].
Proof.
  unfold main. generalize (@nil diagnostic) as out.
  induction walked as [|[[root dirs] files] walked IH]; intros out;
    [reflexivity|].
  cbn [for_each targets flat_map]. rewrite for_each_names, for_each_app.
  destruct (for_each (call_analyzer_error_at fs) _ out) as [out' [|]];
    cbn [fst snd]; [apply IH | reflexivity].
Qed.

Lemma load_some fs path f :
  load fs path = Some f ->
  forall out,
  call_analyzer_error_at fs out path = (call_analyzer_error out f, true).
Proof.
  unfold load, call_analyzer_error_at.
  destruct (fs path) as [[lines tree]|]; [|discriminate].
  now intros [= <-].
Qed.

Lemma load_none fs path :
  fs path = None ->
  forall out, call_analyzer_error_at fs out path = (out, false).
Proof. unfold call_analyzer_error_at. now intros ->. Qed.

(** Over files that load, the loop is the driver's loop, and it ends
    normally. *)
Lemma for_each_loaded fs paths : forall files out,
  map (load fs) paths = map Some files ->
  for_each (call_analyzer_error_at fs) paths out =
  (fold_left call_analyzer_error files out, true).
Proof.
  induction paths as [|p paths IH]; intros [|f files] out H;
    try discriminate; [reflexivity|].
  injection H as Hp H. cbn [for_each fold_left].
  rewrite (@load_some fs p f Hp). now apply IH.
Qed.

(** *** Which files are analysed *)

Lemma endswith_app (x b suffix : str) :
  endswith b suffix = true -> endswith (x ++ b) suffix = true.
Proof.
  unfold endswith. rewrite !startswith_spec, rev_app_distr.
  intros [t ->]. exists (t ++ rev x). now rewrite app_assoc.
Qed.

Lemma endswith_join (a b suffix : str) :
  endswith b suffix = true -> endswith (join a b) suffix = true.
Proof.
  intros H. unfold join.
  destruct (startswith b [slash]); [exact H|].
  destruct (Nat.eqb (List.length a) 0 || endswith a [slash])%bool.
  - now apply endswith_app.
  - rewrite app_assoc. now apply endswith_app.
Qed.

Lemma targets_app w1 w2 : targets (w1 ++ w2) = targets w1 ++ targets w2.
Proof. unfold targets. apply flat_map_app. Qed.

Lemma targets_py walked :
  Forall (fun p => endswith p (lit ".py") = true) (targets walked).
Proof.
  apply Forall_forall. intros p Hp. unfold targets in Hp.
  apply in_flat_map in Hp. destruct Hp as [[[root dirs] files] [_ Hp]].
  apply in_map_iff in Hp. destruct Hp as [name [<- Hn]].
  apply filter_In in Hn. now apply endswith_join.
Qed.

(** X15: in a directory run the program analyses, for each directory the
    walk yields and in the order of the walk, exactly the names of that
    directory that end in [.py], each once, in ascending order of their
    names, each joined to its directory; names with another ending are
    skipped. *)
Theorem directory_run_targets : forall fs walked input_path root dirs files w1 w2,
  main fs true walked input_path =
    for_each (call_analyzer_error_at fs) (targets walked) []
  /\ targets (w1 ++ w2) = targets w1 ++ targets w2
  /\ (exists names,
        targets [(root, dirs, files)] = map (join root) names
        /\ StronglySorted str_le names
        /\ Permutation names
             (filter (fun name => endswith name (lit ".py")) files)
        /\ forall other,
             StronglySorted str_le other ->
             Permutation other
               (filter (fun name => endswith name (lit ".py")) files) ->
             other = names)
  /\ Forall (fun p => endswith p (lit ".py") = true) (targets walked).
Proof.
  intros fs walked input_path root dirs files w1 w2.
  split; [apply main_directory|]. split; [apply targets_app|].
  split; [|apply targets_py].
  exists (filter (fun name => endswith name (lit ".py")) (sorted files)).
  assert (Hs : StronglySorted str_le
                 (filter (fun name => endswith name (lit ".py")) (sorted files)))
    by apply filter_sorted, sorted_sorted.
  assert (Hp : Permutation
                 (filter (fun name => endswith name (lit ".py")) (sorted files))
                 (filter (fun name => endswith name (lit ".py")) files))
    by apply filter_perm, sorted_perm.
  split; [|split; [exact Hs | split; [exact Hp|]]].
  - unfold targets. simpl. now rewrite app_nil_r.
  - intros other Ho Hperm. apply ascending_unique; [exact Ho | exact Hs|].
    now rewrite Hperm, Hp.
Qed.

(** *** What a run of the program prints *)

(** Every line an analysis prints names the path of the file analysed. *)
Lemma call_analyzer_error_file f d :
  In d (call_analyzer_error [] f) -> file d = path f.
Proof.
  unfold call_analyzer_error. rewrite TreeInspector.run_unfold.
  cbn [snd app]. rewrite in_app_iff. intros [H|H].
  - now apply LineRules.scan_output_file in H.
  - apply in_flat_map in H. destruct H as [n [_ H]].
    now apply TreeRules.visit_prints in H.
Qed.

Lemma call_analyzer_error_at_file fs (P : str -> Prop) out p :
  P p -> Forall (fun d => P (file d)) out ->
  Forall (fun d => P (file d)) (fst (call_analyzer_error_at fs out p)).
Proof.
  intros Hp Hout. unfold call_analyzer_error_at.
  destruct (fs p) as [[lines tree]|]; [|exact Hout]. cbn [fst].
  rewrite Driver.call_analyzer_error_append. apply Forall_app.
  split; [exact Hout|]. apply Forall_forall. intros d Hd.
  apply call_analyzer_error_file in Hd. now rewrite Hd.
Qed.

Lemma for_each_file fs (P : str -> Prop) paths : forall out,
  Forall P paths -> Forall (fun d => P (file d)) out ->
  Forall (fun d => P (file d))
         (fst (for_each (call_analyzer_error_at fs) paths out)).
Proof.
  induction paths as [|p paths IH]; intros out Hp Hout; [exact Hout|].
  inversion Hp as [|? ? Hp1 Hp2]; subst. cbn [for_each].
  pose proof (@call_analyzer_error_at_file fs P out p Hp1 Hout) as H.
  destruct (call_analyzer_error_at fs out p) as [out' [|]]; cbn [fst] in *.
  - now apply IH.
  - exact H.
Qed.

(** X16: in a directory run every line printed names a path that ends in
    [.py].  When the path given to the program is not a directory it is
    analysed whatever its name ends in; if it cannot be opened, read or
    parsed, the program stops without printing. *)
Theorem directory_run_reports_py_files : forall fs walked input_path,
  Forall (fun d => endswith (file d) (lit ".py") = true)
         (fst (main fs true walked input_path))
  /\ (forall lines tree,
        fs input_path = Some (lines, tree) ->
        main fs false walked input_path
        = (analyse [SourceFile input_path lines tree], true))
  /\ (fs input_path = None -> main fs false walked input_path = ([], false)).
Proof.
  intros fs walked input_path. split; [|split].
  - rewrite main_directory.
    apply (@for_each_file fs (fun p => endswith p (lit ".py") = true));
      [apply targets_py | constructor].
  - intros lines tree H. unfold main, call_analyzer_error_at. now rewrite H.
  - intros H. unfold main, call_analyzer_error_at. now rewrite H.
Qed.

(** X17: a directory run goes through its targets in order and stops at the
    first one that cannot be opened, read or parsed.  What is printed is
    what the analyses of the targets before it print, in order, each from a
    fresh analyser; nothing is printed for the failing target nor for any
    after it.  When every target loads, all are analysed and the program
    ends normally. *)
Theorem run_stops_at_the_first_failure :
  forall fs walked input_path before files,
  map (load fs) before = map Some files ->
  (targets walked = before ->
   main fs true walked input_path = (analyse files, true))
  /\ (forall bad after,
        targets walked = before ++ bad :: after ->
        fs bad = None ->
        main fs true walked input_path = (analyse files, false)).
Proof.
  intros fs walked input_path before files Hload.
  rewrite main_directory. unfold analyse. split.
  - intros ->. now apply for_each_loaded.
  - intros bad after -> Hbad. rewrite for_each_app.
    rewrite (@for_each_loaded fs before files _ Hload). cbn [fst snd for_each].
    now rewrite (@load_none fs bad Hbad).
Qed.

(** The rule at work: of [a.py], [b.py] and a text file in one directory,
    [a.py] is analysed, [b.py] does not parse, and the run stops there. *)
Lemma run_stops_at_the_first_failure_witness :
  let fs := fun p =>
    if str_eqb p (lit "d/a.py") then Some ([ln "x = 1;"], Other []) else None in
  let walked := [(lit "d", [], [lit "notes.txt"; lit "b.py"; lit "a.py"])] in
  main fs true walked (lit "d")
  = (analyse [SourceFile (lit "d/a.py") [ln "x = 1;"] (Other [])], false).
Proof.
  intros fs walked.
  refine (proj2 (@run_stops_at_the_first_failure fs walked (lit "d")
                   [lit "d/a.py"]
                   [SourceFile (lit "d/a.py") [ln "x = 1;"] (Other [])] _)
                (lit "d/b.py") [] _ _); reflexivity.
Defined.

End Program.

(* ===================================================================== *)
(** ** Running again *)
(* ===================================================================== *)

Module Rerun.
Import LineScanner.

Lemma analyzer_eq (a b : analyzer) :
  path_file a = path_file b ->
  count_blank_lines_in_row a = count_blank_lines_in_row b -> a = b.
Proof. destruct a, b. simpl. now intros -> ->. Qed.

Lemma report_same_path a b n o :
  path_file a = path_file b -> report a n o = report b n o.
Proof. intros H. destruct o; simpl; [reflexivity | now rewrite H]. Qed.

(** [run] leaves in the analyser the state the scan ends in. *)
Lemma run_state self out lines tree :
  fst (run self out lines tree) = fold_left next_line lines self.
Proof. now rewrite TreeInspector.run_unfold. Qed.

Lemma count_after_run self out before last blanks tree :
  ~ blank last -> Forall blank blanks ->
  count_blank_lines_in_row (fst (run self out (before ++ last :: blanks) tree))
  = List.length blanks.
Proof.
  intros Hlast Hblanks. rewrite run_state.
  change (last :: blanks) with ([last] ++ blanks).
  rewrite !fold_left_app, count_after_blank_run by exact Hblanks.
  cbn [fold_left]. now rewrite count_next_line_code.
Qed.

Lemma count_at_no_code c i (out : stdout) :
  (forall d, In d out -> has_code c d = false) -> count_at c i out = 0.
Proof.
  unfold count_at. induction out as [|d out IH]; intros H; [reflexivity|].
  simpl. rewrite (H d) by now left. simpl. apply IH.
  intros e He. apply H. now right.
Qed.

Lemma tree_codes_not_S006 d :
  In (code d) tree_codes -> has_code "S006" d = false.
Proof.
  unfold has_code, tree_codes. simpl.
  intros [<-|[<-|[<-|[<-|[<-|[]]]]]]; reflexivity.
Qed.

Lemma visits_not_S006 self nodes d :
  In d (flat_map (visit self []) nodes) -> has_code "S006" d = false.
Proof.
  intros H. apply in_flat_map in H. destruct H as [n [_ H]].
  apply TreeRules.visit_prints in H. now apply tree_codes_not_S006.
Qed.

Lemma filter_all {A : Type} (f : A -> bool) l :
  (forall x, In x l -> f x = true) -> filter f l = l.
Proof.
  induction l as [|x l IH]; intros H; [reflexivity|]. simpl.
  rewrite (H x) by now left. f_equal. apply IH. intros y Hy. apply H.
  now right.
Qed.

(** What a scan prints for its first line, apart from S006, and for all
    later lines does not depend on the counter it starts with, when that
    first line is not blank. *)
Lemma scan_output_restart a b first rest :
  path_file a = path_file b -> ~ blank first ->
  filter (fun d => negb (has_code "S006" d && (number_line d =? 1)))
         (scan_output a 1 (first :: rest))
  = filter (fun d => negb (has_code "S006" d && (number_line d =? 1)))
           (scan_output b 1 (first :: rest)).
Proof.
  intros Hpath Hfirst. cbn [scan_output]. rewrite !filter_app.
  assert (Hnext : next_line a first = next_line b first).
  { apply analyzer_eq.
    - now rewrite !path_file_next_line.
    - now rewrite !count_next_line_code. }
  rewrite Hnext. f_equal.
  assert (Hrep : forall o, report a 1 o = report b 1 o)
    by (intros o; now apply report_same_path).
  unfold line_output. rewrite !filter_app, !Hrep.
  do 5 f_equal. f_equal.
  assert (Hne : str_eqb (strip first) [] = false).
  { apply not_true_iff_false. intros E. now apply blank_dec in E. }
  unfold check_blank_lines. rewrite Hne.
  destruct (2 <? count_blank_lines_in_row a),
           (2 <? count_blank_lines_in_row b); reflexivity.
Qed.

(** C9, as the code has it.  The driver builds a new analyser, with the
    counter at zero, for every analysis, so analysing an unchanged file
    twice prints the same lines twice, in the same order.  [run] itself
    neither resets nor drops the counter: when it returns, the counter holds
    the number of blank lines at the end of the file (added to what it held
    before, for a file of blank lines only), and a second [run] of the same
    analyser starts from there.  That second run prints what the first
    printed when the file ends in a line that is not blank; when the file
    starts with a line that is not blank and ends in more than two blank
    lines, it prints what the first printed and one S006 for line 1 more. *)
Theorem rerun_rule :
  forall (f : source_file) (self : analyzer) (out : stdout) (parsed : node)
         (location : str),
  (analyse [f; f] = analyse [f] ++ analyse [f]
   /\ analyse [f] = snd (run (init (path f)) [] (lines f) (tree f))
   /\ count_blank_lines_in_row (init (path f)) = 0)
  /\ (forall before last blanks,
        ~ blank last -> Forall blank blanks ->
        count_blank_lines_in_row
          (fst (run self out (before ++ last :: blanks) parsed))
        = List.length blanks)
  /\ (forall blanks,
        Forall blank blanks ->
        count_blank_lines_in_row (fst (run self out blanks parsed))
        = count_blank_lines_in_row self + List.length blanks)
  /\ (forall before last,
        ~ blank last -> count_blank_lines_in_row self = 0 ->
        run (fst (run self [] (before ++ [last]) parsed)) []
            (before ++ [last]) parsed
        = run self [] (before ++ [last]) parsed)
  /\ (forall first rest blanks,
        ~ blank first -> Forall blank blanks -> 2 < List.length blanks ->
        let lines := first :: rest ++ blanks in
        let once := run (init location) [] lines parsed in
        let again := run (fst once) [] lines parsed in
        count_at "S006" 1 (snd once) = 0
        /\ count_at "S006" 1 (snd again) = 1
        /\ filter (fun d => negb (has_code "S006" d && (number_line d =? 1)))
                  (snd again)
           = snd once).
Proof.
  intros f self out parsed location.
  split; [|split; [|split; [|split]]].
  - split; [|split; reflexivity].
    unfold analyse. simpl.
    now rewrite (Driver.call_analyzer_error_append (call_analyzer_error [] f) f).
  - intros before last blanks. apply count_after_run.
  - intros blanks Hblanks. rewrite run_state.
    now apply count_after_blank_run.
  - intros before last Hlast Hzero. f_equal. apply analyzer_eq.
    + rewrite run_state. apply path_file_scan.
    + rewrite Hzero.
      apply (@count_after_run self [] before last [] parsed Hlast).
      constructor.
  - intros first rest blanks Hfirst Hblanks Hlong lines once again.
    assert (Hne : str_eqb (strip first) [] = false).
    { apply not_true_iff_false. intros E. now apply blank_dec in E. }
    set (s1 := fst once).
    assert (Hpath : path_file s1 = path_file (init location)).
    { unfold s1, once. rewrite run_state. apply path_file_scan. }
    assert (Hcount : 2 < count_blank_lines_in_row s1).
    { unfold s1, once, lines. rewrite run_state.
      change (first :: rest ++ blanks) with ((first :: rest) ++ blanks).
      rewrite fold_left_app, count_after_blank_run by exact Hblanks. lia. }
    assert (Hvisit : flat_map (visit s1 []) (walk parsed)
                     = flat_map (visit (init location) []) (walk parsed)).
    { apply flat_map_ext. intros n. now apply TreeInspector.visit_path. }
    assert (Hline1 : forall s,
              count_at "S006" 1
                (scan_output s 1 lines ++ flat_map (visit (init location) []) (walk parsed))
              = if 2 <? count_blank_lines_in_row s then 1 else 0).
    { intros s. unfold lines. cbn [scan_output]. rewrite !count_at_app.
      rewrite count_S006_line_output, count_S006_blank_lines, Hne.
      rewrite (@count_at_other_lines "S006" 1 (scan_output _ 2 _)).
      2:{ intros d Hd. apply scan_output_number_line in Hd. lia. }
      rewrite (@count_at_no_code "S006" 1 (flat_map _ _)).
      2:{ intros d Hd. now apply visits_not_S006 in Hd. }
      destruct (2 <? count_blank_lines_in_row s); reflexivity. }
    assert (Honce : snd once
              = scan_output (init location) 1 lines
                ++ flat_map (visit (init location) []) (walk parsed)).
    { unfold once. now rewrite TreeInspector.run_unfold. }
    assert (Hagain : snd again
              = scan_output s1 1 lines
                ++ flat_map (visit (init location) []) (walk parsed)).
    { unfold again. fold s1. rewrite TreeInspector.run_unfold. cbn [snd app].
      now rewrite Hvisit. }
    split; [|split].
    + rewrite Honce, Hline1. reflexivity.
    + rewrite Hagain, Hline1. apply Nat.ltb_lt in Hcount. now rewrite Hcount.
    + rewrite Hagain, Honce, filter_app. unfold lines in *.
      rewrite (@scan_output_restart s1 (init location) first (rest ++ blanks)
                 Hpath Hfirst).
      rewrite <- filter_app. apply filter_all.
      intros d Hd. rewrite <- Honce in Hd.
      destruct (has_code "S006" d) eqn:Ec; [|reflexivity].
      destruct (number_line d =? 1) eqn:En; [|reflexivity].
      exfalso.
      assert (Hz : count_at "S006" 1 (snd once) = 0)
        by (rewrite Honce, Hline1; reflexivity).
      unfold count_at in Hz. apply length_zero_iff_nil in Hz.
      assert (Hin : In d (filter (fun d => has_code "S006" d
                                           && (number_line d =? 1))%bool
                                 (snd once))).
      { apply filter_In. split; [exact Hd|]. now rewrite Ec, En. }
      rewrite Hz in Hin. exact Hin.
Qed.

(** C9, refuted as stated: one analyser run twice on a file that starts with
    code and ends in three blank lines prints nothing the first time and
    S006 for line 1 the second time; the counter was 3, not 0, when the
    first run returned. *)
Lemma rerun_on_one_instance_differs :
  let lines := [ln "x = 1"; ln ""; ln ""; ln ""] in
  let once := run (init (lit "a.py")) [] lines (Other []) in
  let again := run (fst once) [] lines (Other []) in
  snd once = []
  /\ snd again
     = [Diagnostic (lit "a.py") 1 (lit "S006")
          (lit "More than two blank lines preceding a code line")]
  /\ count_blank_lines_in_row (fst once) = 3.
Proof. repeat split; reflexivity. Qed.

End Rerun.
